(** * AgeToken attestation: the Node attestor and the Python validator

    A shallow embedding of the two proof-of-concept programs of the
    repository:

    - the attestor ([signToken] and the [POST /issue_token] handler of
      [samples/attestor-node/attestor.js]);
    - the validator ([validate_compact_token] of
      [samples/validator-python/validator.py], as listed in the technical
      appendix).

    Conventions of the embedding.

    - A JavaScript or Python text string is identified with the sequence of
      its UTF-8 octets, a Rocq [string].  [Buffer.from(payload)] and
      [payload_json.encode('utf-8')] are therefore the identity.  Where
      JavaScript compares strings ([sort]) it compares their UTF-16 code
      units, which [JS.utf16] computes from the octets.
    - Numbers are modelled on the integers ([Z]): the only numbers the two
      programs compute with are Unix times in seconds, on which the
      arithmetic of JavaScript numbers is exact and whose text is the
      decimal numeral.  Numbers with a fraction or an exponent are outside
      the model.
    - A JSON object is the list of its members in insertion order, each key
      once; a member is an own property (names inherited from
      [Object.prototype] play no role for the keys of a token).
    - The clock ([Date.now()], [time.time()]) and the random token
      identifier ([uuidv4()]) are inputs of the functions that read them.
    - Ed25519 ([tweetnacl], [PyNaCl]) is a parameter of the development.
    - Python exceptions are values of type [exn]; a call returns or raises
      ([outcome]). *)

From Stdlib Require Import ZArith List String Ascii Bool Lia Decimal
  DecimalString DecimalPos DecimalZ DecimalFacts Sorted OrderedTypeEx.
Import ListNotations.

Local Open Scope list_scope.
Local Open Scope string_scope.
Local Open Scope Z_scope.

(** ** Python exceptions *)

Module Py.

(** The exception classes the validator's calls can raise, with their
    base classes as in CPython and PyNaCl, and one class that
    [except Exception] does not catch. *)
Inductive cls : Type :=
| BaseException | Exception
| ValueErrorC | TypeErrorC | LookupErrorC | KeyErrorC
| RuntimeErrorC | RecursionErrorC
| BinasciiErrorC | JSONDecodeErrorC
| CryptoErrorC | BadSignatureErrorC
| KeyboardInterrupt.

Definition base (c : cls) : option cls :=
  match c with
  | BaseException => None
  | Exception => Some BaseException
  | KeyboardInterrupt => Some BaseException
  | ValueErrorC | TypeErrorC | LookupErrorC | RuntimeErrorC | CryptoErrorC =>
      Some Exception
  | KeyErrorC => Some LookupErrorC
  | RecursionErrorC => Some RuntimeErrorC
  | BinasciiErrorC | JSONDecodeErrorC => Some ValueErrorC
  | BadSignatureErrorC => Some CryptoErrorC
  end.

Definition cls_eqb (c d : cls) : bool :=
  match c, d with
  | BaseException, BaseException | Exception, Exception
  | ValueErrorC, ValueErrorC | TypeErrorC, TypeErrorC
  | LookupErrorC, LookupErrorC | KeyErrorC, KeyErrorC
  | RuntimeErrorC, RuntimeErrorC | RecursionErrorC, RecursionErrorC
  | BinasciiErrorC, BinasciiErrorC | JSONDecodeErrorC, JSONDecodeErrorC
  | CryptoErrorC, CryptoErrorC | BadSignatureErrorC, BadSignatureErrorC
  | KeyboardInterrupt, KeyboardInterrupt => true
  | _, _ => false
  end.

(** [issubclass c d], walking up the chain of base classes (no chain is
    longer than four). *)
Fixpoint issubclass_upto (n : nat) (c d : cls) : bool :=
  cls_eqb c d ||
  match n with
  | O => false
  | S n' => match base c with
            | Some c' => issubclass_upto n' c' d
            | None => false
            end
  end.

Definition issubclass : cls -> cls -> bool := issubclass_upto 4.

(** An exception object: its class and what [str(e)] shows of it. *)
Inductive exn : Type :=
| ValueError (msg : string)
| TypeError (msg : string)
| KeyError (key : string)
| RecursionError
| BinasciiError (msg : string)
| JSONDecodeError (msg : string)
| BadSignatureError.

Definition class_of (e : exn) : cls :=
  match e with
  | ValueError _ => ValueErrorC
  | TypeError _ => TypeErrorC
  | KeyError _ => KeyErrorC
  | RecursionError => RecursionErrorC
  | BinasciiError _ => BinasciiErrorC
  | JSONDecodeError _ => JSONDecodeErrorC
  | BadSignatureError => BadSignatureErrorC
  end.

Definition isinstance (e : exn) (c : cls) : bool := issubclass (class_of e) c.

(** A call either returns a value or raises. *)
Inductive outcome (A : Type) : Type :=
| Returns (a : A)
| Raises (e : exn).
Arguments Returns {A} a.
Arguments Raises {A} e.

Definition bind {A B : Type} (m : outcome A) (k : A -> outcome B) : outcome B :=
  match m with
  | Returns a => k a
  | Raises e => Raises e
  end.

(** [try: body / except Exception as e: handler e]. *)
Definition try_except_Exception {A : Type}
    (body : outcome A) (handler : exn -> outcome A) : outcome A :=
  match body with
  | Returns a => Returns a
  | Raises e => if isinstance e Exception then handler e else Raises e
  end.

End Py.

Import Py.

Declare Scope py_scope.
Delimit Scope py_scope with py.
Notation "x <- m ;; k" := (Py.bind m (fun x => k))
  (at level 61, m at next level, right associativity) : py_scope.
Notation "' p <- m ;; k" := (Py.bind m (fun x => match x with p => k end))
  (at level 61, p pattern, m at next level, right associativity) : py_scope.
Local Open Scope py_scope.

(** ** Text helpers *)

Fixpoint no_dot (s : string) : bool :=
  match s with
  | EmptyString => true
  | String c r => negb (Ascii.eqb c ".") && no_dot r
  end.

(** Python [s.split('.')]: always at least one piece. *)
Fixpoint split_dot (s : string) : list string :=
  match s with
  | EmptyString => [EmptyString]
  | String c r =>
      if Ascii.eqb c "." then EmptyString :: split_dot r
      else match split_dot r with
           | h :: t => String c h :: t
           | [] => [String c EmptyString]
           end
  end.

(** [a, b = pieces]: unpacking into exactly two names. *)
Definition unpack2 (pieces : list string) : outcome (string * string) :=
  match pieces with
  | [a; b] => Returns (a, b)
  | [] | [_] => Raises (ValueError "not enough values to unpack (expected 2)")
  | _ => Raises (ValueError "too many values to unpack (expected 2)")
  end.

(** ** base64url, without padding

    [base64url.encode] of the Node package (the unpadded URL-safe alphabet
    of RFC 4648) and [base64url.decode] of the Python side, its inverse;
    the decoder raises on a character outside the alphabet and on a
    length that no encoding has. *)

Module B64.

Definition alphabet : string :=
  "ABCDEFGHIJKLMNOPQRSTUVWXYZabcdefghijklmnopqrstuvwxyz0123456789-_".

Definition digit (n : N) : ascii :=
  match String.get (N.to_nat n) alphabet with
  | Some c => c
  | None => "A"%char
  end.

Fixpoint index_from (i : N) (c : ascii) (s : string) : option N :=
  match s with
  | EmptyString => None
  | String d r => if Ascii.eqb c d then Some i else index_from (N.succ i) c r
  end.

Definition value (c : ascii) : outcome N :=
  match index_from 0 c alphabet with
  | Some n => Returns n
  | None => Raises (BinasciiError "character outside the base64url alphabet")
  end.

Definition byte (n : N) : ascii := ascii_of_N n.
Definition code (c : ascii) : N := N_of_ascii c.

Fixpoint encode (s : string) : string :=
  match s with
  | EmptyString => EmptyString
  | String a EmptyString =>
      let n := (code a * 16)%N in
      String (digit (n / 64)) (String (digit (n mod 64)) EmptyString)
  | String a (String b EmptyString) =>
      let n := ((code a * 256 + code b) * 4)%N in
      String (digit (n / 4096)) (String (digit ((n / 64) mod 64))
        (String (digit (n mod 64)) EmptyString))
  | String a (String b (String c rest)) =>
      let n := (code a * 65536 + code b * 256 + code c)%N in
      String (digit (n / 262144)) (String (digit ((n / 4096) mod 64))
        (String (digit ((n / 64) mod 64)) (String (digit (n mod 64))
          (encode rest))))
  end.

Fixpoint decode (s : string) : outcome string :=
  match s with
  | EmptyString => Returns EmptyString
  | String _ EmptyString =>
      Raises (BinasciiError "invalid length")
  | String c1 (String c2 EmptyString) =>
      v1 <- value c1 ;; v2 <- value c2 ;;
      let n := (v1 * 64 + v2)%N in
      Returns (String (byte (n / 16)) EmptyString)
  | String c1 (String c2 (String c3 EmptyString)) =>
      v1 <- value c1 ;; v2 <- value c2 ;; v3 <- value c3 ;;
      let n := (v1 * 4096 + v2 * 64 + v3)%N in
      Returns (String (byte (n / 1024)) (String (byte ((n / 4) mod 256)) EmptyString))
  | String c1 (String c2 (String c3 (String c4 rest))) =>
      v1 <- value c1 ;; v2 <- value c2 ;; v3 <- value c3 ;; v4 <- value c4 ;;
      let n := (v1 * 262144 + v2 * 4096 + v3 * 64 + v4)%N in
      tail <- decode rest ;;
      Returns (String (byte (n / 65536)) (String (byte ((n / 256) mod 256))
                (String (byte (n mod 256)) tail)))
  end.

End B64.

(** ** JSON values *)

Module Json.

(** A JSON document.  A JavaScript object and a Python [dict] both keep
    their members in insertion order: an association list. *)
Unset Elimination Schemes.
Inductive json : Type :=
| JNull
| JBool (b : bool)
| JNum (n : Z)
| JStr (s : string)
| JArr (items : list json)
| JObj (members : list (string * json)).
Set Elimination Schemes.

(** Induction on documents, with the hypothesis for every item of an array
    and every member of an object. *)
Fixpoint json_ind (P : json -> Prop)
    (Hnull : P JNull) (Hbool : forall b, P (JBool b))
    (Hnum : forall n, P (JNum n)) (Hstr : forall s, P (JStr s))
    (Harr : forall items, Forall P items -> P (JArr items))
    (Hobj : forall members, Forall (fun kv => P (snd kv)) members -> P (JObj members))
    (v : json) {struct v} : P v :=
  match v with
  | JNull => Hnull
  | JBool b => Hbool b
  | JNum n => Hnum n
  | JStr s => Hstr s
  | JArr items =>
      Harr items
        ((fix all (l : list json) : Forall P l :=
            match l with
            | [] => Forall_nil P
            | x :: r =>
                Forall_cons x (json_ind P Hnull Hbool Hnum Hstr Harr Hobj x) (all r)
            end) items)
  | JObj members =>
      Hobj members
        ((fix all (l : list (string * json)) : Forall (fun kv => P (snd kv)) l :=
            match l with
            | [] => Forall_nil _
            | kv :: r =>
                Forall_cons kv
                  (json_ind P Hnull Hbool Hnum Hstr Harr Hobj (snd kv)) (all r)
            end) members)
  end.

Definition object : Type := list (string * json).

(** Own-property / dictionary lookup; [None] is JavaScript's [undefined]
    and Python's missing key. *)
Fixpoint lookup {A : Type} (k : string) (m : list (string * A)) : option A :=
  match m with
  | [] => None
  | (k', v) :: r => if String.eqb k k' then Some v else lookup k r
  end.

(** The properties named by [keys] that [props] defines, in the order of
    [keys]. *)
Fixpoint select {A : Type} (keys : list string) (props : list (string * A))
    : list (string * A) :=
  match keys with
  | [] => []
  | P :: rest =>
      match lookup P props with
      | Some x => (P, x) :: select rest props
      | None => select rest props
      end
  end.

Definition dquote : ascii := "034"%char.
Definition backslash : ascii := "092"%char.

(** The decimal numeral of an integer (JavaScript [Number::toString],
    Python [int(...)] in the other direction). *)
Definition number_to_string (n : Z) : string :=
  NilZero.string_of_int (Z.to_int n).

Fixpoint join_comma (parts : list string) : string :=
  match parts with
  | [] => EmptyString
  | [p] => p
  | p :: rest => p ++ "," ++ join_comma rest
  end.

End Json.

Import Json.

(** ** The JavaScript side: [JSON.stringify] with an array replacer *)

Module JS.

(** [ToBoolean]: [undefined], [null], [false], [0] and the empty string are
    falsy, every object and array is truthy. *)
Definition truthy (v : option json) : bool :=
  match v with
  | None => false
  | Some JNull => false
  | Some (JBool b) => b
  | Some (JNum n) => negb (n =? 0)
  | Some (JStr s) => negb (String.eqb s EmptyString)
  | Some (JArr _) | Some (JObj _) => true
  end.

(** [array.includes(x)] on an array of strings ([SameValueZero]). *)
Definition includes (array : list string) (x : option json) : bool :=
  match x with
  | Some (JStr s) => existsb (String.eqb s) array
  | _ => false
  end.

(** [Object.keys]: the own keys (insertion order; integer-like keys would
    come first, which the sort that follows makes irrelevant). *)
Definition Object_keys (o : object) : list string := map fst o.

(** A JavaScript string is its sequence of UTF-16 code units.  [utf16 s]
    gives the code units of the string that the octets [s] encode in
    UTF-8: a code point up to U+FFFF is one unit, a code point beyond it
    a surrogate pair.  An octet that starts no UTF-8 sequence encodes no
    JavaScript string; it stands for itself. *)
Definition continuation (c : ascii) : option N :=
  let n := N_of_ascii c in
  if ((128 <=? n) && (n <? 192))%N then Some (n - 128)%N else None.

Definition code_units (cp : N) : list N :=
  if (cp <? 65536)%N then [cp]
  else [55296 + (cp - 65536) / 1024; 56320 + (cp - 65536) mod 1024]%N.

Fixpoint utf16 (s : string) : list N :=
  match s with
  | EmptyString => []
  | String c r =>
      let n := N_of_ascii c in
      let stray := n :: utf16 r in
      if (n <? 192)%N then stray
      else if (n <? 224)%N then
        match r with
        | String c1 r1 =>
            match continuation c1 with
            | Some x1 => code_units ((n - 192) * 64 + x1)%N ++ utf16 r1
            | None => stray
            end
        | _ => stray
        end
      else if (n <? 240)%N then
        match r with
        | String c1 (String c2 r2) =>
            match continuation c1, continuation c2 with
            | Some x1, Some x2 =>
                code_units (((n - 224) * 64 + x1) * 64 + x2)%N ++ utf16 r2
            | _, _ => stray
            end
        | _ => stray
        end
      else
        match r with
        | String c1 (String c2 (String c3 r3)) =>
            match continuation c1, continuation c2, continuation c3 with
            | Some x1, Some x2, Some x3 =>
                code_units ((((n - 240) * 64 + x1) * 64 + x2) * 64 + x3)%N ++ utf16 r3
            | _, _, _ => stray
            end
        | _ => stray
        end
  end.

(** The lexicographic comparison of two sequences of code units. *)
Fixpoint compare_units (u v : list N) : comparison :=
  match u, v with
  | [], [] => Eq
  | [], _ :: _ => Lt
  | _ :: _, [] => Gt
  | x :: u', y :: v' =>
      match (x ?= y)%N with
      | Eq => compare_units u' v'
      | c => c
      end
  end.

(** [SortCompare] without a comparator, on strings: the comparison of
    their code units.  It differs from the comparison of the octets where
    a character of U+E000..U+FFFF meets one beyond U+FFFF, whose surrogates
    D800..DFFF are smaller.  Two strings have the same code units only if
    they are equal; the octets decide between sequences of octets that
    encode no string, so that the comparison is a total order on all of
    them. *)
Definition SortCompare (x y : string) : comparison :=
  match compare_units (utf16 x) (utf16 y) with
  | Eq => String.compare x y
  | c => c
  end.

Definition precedes (x y : string) : bool :=
  match SortCompare x y with
  | Gt => false
  | _ => true
  end.

(** [Array.prototype.sort()] with the default comparison, on strings. *)
Fixpoint insert_sorted (x : string) (l : list string) : list string :=
  match l with
  | [] => [x]
  | y :: r => if precedes x y then x :: l else y :: insert_sorted x r
  end.

Fixpoint sort (l : list string) : list string :=
  match l with
  | [] => []
  | x :: r => insert_sorted x (sort r)
  end.

(** The [PropertyList] that [JSON.stringify] builds from an array
    replacer: its strings, each once, in order of first occurrence. *)
Fixpoint property_list_from (seen : list string) (replacer : list string) : list string :=
  match replacer with
  | [] => []
  | k :: r =>
      if existsb (String.eqb k) seen then property_list_from seen r
      else k :: property_list_from (k :: seen) r
  end.

Definition property_list : list string -> list string := property_list_from [].

Definition hex_digit (n : N) : ascii :=
  match String.get (N.to_nat n) "0123456789abcdef" with
  | Some c => c
  | None => "0"%char
  end.

(** One character of [QuoteJSONString]. *)
Definition quote_char (c : ascii) : string :=
  let n := N_of_ascii c in
  if Ascii.eqb c dquote then String backslash (String dquote EmptyString)
  else if Ascii.eqb c backslash then String backslash (String backslash EmptyString)
  else if (n =? 8)%N then String backslash "b"
  else if (n =? 9)%N then String backslash "t"
  else if (n =? 10)%N then String backslash "n"
  else if (n =? 12)%N then String backslash "f"
  else if (n =? 13)%N then String backslash "r"
  else if (n <? 32)%N then
    String backslash (String "u" (String "0" (String "0"
      (String (hex_digit (n / 16)) (String (hex_digit (n mod 16)) EmptyString)))))
  else String c EmptyString.

Fixpoint quote_body (s : string) : string :=
  match s with
  | EmptyString => EmptyString
  | String c r => quote_char c ++ quote_body r
  end.

Definition QuoteJSONString (s : string) : string :=
  String dquote (quote_body s ++ String dquote EmptyString).

Section Serialize.

(** [state.[[PropertyList]]].  [SerializeJSONObject] (ECMA-262, 25.5.2.5)
    takes its list of keys [K] from it whenever it is defined, and
    enumerates the own keys of the object only otherwise; with an array
    replacer it is therefore the list of keys of every object that is
    serialized, at any depth. *)
Variable K : list string.

(** [SerializeJSONObject]: for each [P] of [K] for which
    [SerializeJSONProperty(state, P, value)] is defined, that is for which
    [Get(value, P)] is, the member [QuoteJSONString(P) : strP]. *)
Definition member (kv : string * string) : string :=
  QuoteJSONString (fst kv) ++ ":" ++ snd kv.

(** [SerializeJSONProperty] on a JSON value. *)
Fixpoint serialize (v : json) : string :=
  match v with
  | JNull => "null"
  | JBool true => "true"
  | JBool false => "false"
  | JNum n => number_to_string n
  | JStr s => QuoteJSONString s
  | JArr items => "[" ++ join_comma (map serialize items) ++ "]"
  | JObj members =>
      "{" ++ join_comma
               (map member
                  (select K (map (fun kv => (fst kv, serialize (snd kv))) members)))
          ++ "}"
  end.

(** The document that text denotes: every object, at any depth, reduced
    to the properties named in [K], in the order of [K]. *)
Fixpoint project (v : json) : json :=
  match v with
  | JArr items => JArr (map project items)
  | JObj members =>
      JObj (select K (map (fun kv => (fst kv, project (snd kv))) members))
  | _ => v
  end.

End Serialize.

(** [JSON.stringify(value, replacer)] with [replacer] an array of strings. *)
Definition JSON_stringify (value : json) (replacer : list string) : string :=
  serialize (property_list replacer) value.

End JS.

(** ** The Python side: [json.loads]

    The decoder of the standard library on the modelled subset of JSON:
    number literals with a fraction or an exponent (Python floats, also
    [NaN] and [Infinity]) are outside it and reported as a decode error;
    the attestor never emits one. *)

Module PyJson.

Definition is_ws (c : ascii) : bool :=
  let n := N_of_ascii c in
  ((n =? 32) || (n =? 9) || (n =? 10) || (n =? 13))%N.

Fixpoint skip_ws (s : string) : string :=
  match s with
  | EmptyString => s
  | String c r => if is_ws c then skip_ws r else s
  end.

Definition hex_value (c : ascii) : option N :=
  let n := N_of_ascii c in
  if ((48 <=? n) && (n <=? 57))%N then Some (n - 48)%N
  else if ((97 <=? n) && (n <=? 102))%N then Some (n - 87)%N
  else if ((65 <=? n) && (n <=? 70))%N then Some (n - 55)%N
  else None.

Definition hex4 (a b c d : ascii) : option N :=
  match hex_value a, hex_value b, hex_value c, hex_value d with
  | Some x, Some y, Some z, Some w => Some (x * 4096 + y * 256 + z * 16 + w)%N
  | _, _, _, _ => None
  end.

(** The text of a code point (UTF-8; a lone surrogate is written the same
    way). *)
Definition utf8 (cp : N) : string :=
  if (cp <? 128)%N then String (ascii_of_N cp) EmptyString
  else if (cp <? 2048)%N then
    String (ascii_of_N (192 + cp / 64))
      (String (ascii_of_N (128 + cp mod 64)) EmptyString)
  else if (cp <? 65536)%N then
    String (ascii_of_N (224 + cp / 4096))
      (String (ascii_of_N (128 + (cp / 64) mod 64))
        (String (ascii_of_N (128 + cp mod 64)) EmptyString))
  else
    String (ascii_of_N (240 + cp / 262144))
      (String (ascii_of_N (128 + (cp / 4096) mod 64))
        (String (ascii_of_N (128 + (cp / 64) mod 64))
          (String (ascii_of_N (128 + cp mod 64)) EmptyString))).

Definition is_high_surrogate (u : N) : bool := ((55296 <=? u) && (u <=? 56319))%N.
Definition is_low_surrogate (u : N) : bool := ((56320 <=? u) && (u <=? 57343))%N.

(** The [BACKSLASH] table of [json.decoder]. *)
Definition unescape (e : ascii) : option ascii :=
  if Ascii.eqb e dquote then Some dquote
  else if Ascii.eqb e backslash then Some backslash
  else if Ascii.eqb e "/" then Some "/"%char
  else if Ascii.eqb e "b" then Some (ascii_of_N 8)
  else if Ascii.eqb e "f" then Some (ascii_of_N 12)
  else if Ascii.eqb e "n" then Some (ascii_of_N 10)
  else if Ascii.eqb e "r" then Some (ascii_of_N 13)
  else if Ascii.eqb e "t" then Some (ascii_of_N 9)
  else None.

Definition bad_escape {A : Type} : outcome A :=
  Raises (JSONDecodeError "Invalid \escape").
Definition bad_uescape {A : Type} : outcome A :=
  Raises (JSONDecodeError "Invalid \uXXXX escape").
Definition unterminated {A : Type} : outcome A :=
  Raises (JSONDecodeError "Unterminated string starting at").

(** [py_scanstring] in strict mode, from the character after the opening
    quote: the string and the text after its closing quote. *)
Fixpoint scanstring (s : string) : outcome (string * string) :=
  match s with
  | EmptyString => unterminated
  | String c r =>
      if Ascii.eqb c dquote then Returns (EmptyString, r)
      else if Ascii.eqb c backslash then
        match r with
        | EmptyString => unterminated
        | String e r1 =>
            if Ascii.eqb e "u" then
              match r1 with
              | String h1 (String h2 (String h3 (String h4 r2))) =>
                  match hex4 h1 h2 h3 h4 with
                  | None => bad_uescape
                  | Some u =>
                      let single :=
                        '(t, rest) <- scanstring r2 ;; Returns (utf8 u ++ t, rest) in
                      if is_high_surrogate u then
                        match r2 with
                        | String b1 (String b2
                            (String k1 (String k2 (String k3 (String k4 r3))))) =>
                            if Ascii.eqb b1 backslash && Ascii.eqb b2 "u" then
                              match hex4 k1 k2 k3 k4 with
                              | None => bad_uescape
                              | Some u2 =>
                                  if is_low_surrogate u2 then
                                    '(t, rest) <- scanstring r3 ;;
                                    Returns
                                      (utf8 (65536 + (u - 55296) * 1024 + (u2 - 56320))%N
                                         ++ t, rest)
                                  else single
                              end
                            else single
                        | String b1 (String b2 _) =>
                            if Ascii.eqb b1 backslash && Ascii.eqb b2 "u"
                            then bad_uescape else single
                        | _ => single
                        end
                      else single
                  end
              | _ => bad_uescape
              end
            else
              match unescape e with
              | Some ch => '(t, rest) <- scanstring r1 ;; Returns (String ch t, rest)
              | None => bad_escape
              end
        end
      else if (N_of_ascii c <? 32)%N then
        Raises (JSONDecodeError "Invalid control character at")
      else '(t, rest) <- scanstring r ;; Returns (String c t, rest)
  end.

Definition digit_of_char (c : ascii) : option (uint -> uint) :=
  let n := N_of_ascii c in
  if (n =? 48)%N then Some D0 else if (n =? 49)%N then Some D1
  else if (n =? 50)%N then Some D2 else if (n =? 51)%N then Some D3
  else if (n =? 52)%N then Some D4 else if (n =? 53)%N then Some D5
  else if (n =? 54)%N then Some D6 else if (n =? 55)%N then Some D7
  else if (n =? 56)%N then Some D8 else if (n =? 57)%N then Some D9
  else None.

Fixpoint scan_digits (s : string) : uint * string :=
  match s with
  | EmptyString => (Nil, s)
  | String c r =>
      match digit_of_char c with
      | Some d => let '(u, rest) := scan_digits r in (d u, rest)
      | None => (Nil, s)
      end
  end.

Definition expecting_value {A : Type} : outcome A :=
  Raises (JSONDecodeError "Expecting value").

(** After the integer part: a fraction or an exponent makes a float. *)
Definition finish_number (negative : bool) (u : uint) (rest : string)
    : outcome (Z * string) :=
  let n := Z.of_int (if negative then Neg u else Pos u) in
  match rest with
  | String c _ =>
      if Ascii.eqb c "." || Ascii.eqb c "e" || Ascii.eqb c "E"
      then Raises (JSONDecodeError "number outside the modelled subset")
      else Returns (n, rest)
  | EmptyString => Returns (n, rest)
  end.

(** The integer part of the [NUMBER_RE] match of the scanner: an optional
    minus sign, then a single zero or a digit string without leading zero. *)
Definition scan_number (s : string) : outcome (Z * string) :=
  let '(negative, s1) :=
    match s with
    | String c r => if Ascii.eqb c "-" then (true, r) else (false, s)
    | EmptyString => (false, s)
    end in
  match s1 with
  | EmptyString => expecting_value
  | String c r =>
      if Ascii.eqb c "0" then finish_number negative (D0 Nil) r
      else match digit_of_char c with
           | Some _ => let '(u, rest) := scan_digits s1 in finish_number negative u rest
           | None => expecting_value
           end
  end.

(** [dict(pairs)]: a repeated key keeps its first position and takes the
    last value. *)
Fixpoint dict_set (d : object) (k : string) (v : json) : object :=
  match d with
  | [] => [(k, v)]
  | (k', v') :: r =>
      if String.eqb k k' then (k', v) :: r else (k', v') :: dict_set r k v
  end.

Definition dict (pairs : list (string * json)) : object :=
  fold_left (fun d kv => dict_set d (fst kv) (snd kv)) pairs [].

(** [s.startswith(p)], as in [string[idx:idx + 4] == 'null']. *)
Fixpoint starts_with (p s : string) : bool :=
  match p with
  | EmptyString => true
  | String a p' =>
      match s with
      | String b s' => Ascii.eqb a b && starts_with p' s'
      | EmptyString => false
      end
  end.

Fixpoint drop (n : nat) (s : string) : string :=
  match n, s with
  | S n', String _ r => drop n' r
  | _, _ => s
  end.

(** [scan_once], [JSONObject] and [JSONArray] of [json.scanner] and
    [json.decoder].  [depth] bounds the nesting of calls, where Python
    raises [RecursionError] when its stack is exhausted; the member and
    item loops count against it as well.  [loads] starts with the length
    of the text, which [scan_once_serialize] below shows to be enough for
    every text the attestor writes; the limit of the interpreter itself is
    not modelled. *)
Fixpoint scan_once (depth : nat) (s : string) {struct depth}
    : outcome (json * string) :=
  match depth with
  | O => Raises RecursionError
  | S d =>
      match s with
      | EmptyString => expecting_value
      | String c r =>
          if Ascii.eqb c dquote then
            '(str, rest) <- scanstring r ;; Returns (JStr str, rest)
          else if Ascii.eqb c "{" then
            match skip_ws r with
            | String c1 r1 =>
                if Ascii.eqb c1 "}" then Returns (JObj [], r1)
                else '(pairs, rest) <- JSONObject d (String c1 r1) ;;
                     Returns (JObj (dict pairs), rest)
            | EmptyString =>
                Raises (JSONDecodeError
                          "Expecting property name enclosed in double quotes")
            end
          else if Ascii.eqb c "[" then
            match skip_ws r with
            | String c1 r1 =>
                if Ascii.eqb c1 "]" then Returns (JArr [], r1)
                else '(items, rest) <- JSONArray d (String c1 r1) ;;
                     Returns (JArr items, rest)
            | EmptyString => expecting_value
            end
          else if starts_with "null" s then Returns (JNull, drop 4 s)
          else if starts_with "true" s then Returns (JBool true, drop 4 s)
          else if starts_with "false" s then Returns (JBool false, drop 5 s)
          else '(n, rest) <- scan_number s ;; Returns (JNum n, rest)
      end
  end

with JSONObject (depth : nat) (s : string) {struct depth}
    : outcome (list (string * json) * string) :=
  match depth with
  | O => Raises RecursionError
  | S d =>
      match s with
      | EmptyString =>
          Raises (JSONDecodeError "Expecting property name enclosed in double quotes")
      | String c r =>
          if negb (Ascii.eqb c dquote) then
            Raises (JSONDecodeError "Expecting property name enclosed in double quotes")
          else
            '(key, r1) <- scanstring r ;;
            match skip_ws r1 with
            | EmptyString => Raises (JSONDecodeError "Expecting ':' delimiter")
            | String c2 r2 =>
                if negb (Ascii.eqb c2 ":") then
                  Raises (JSONDecodeError "Expecting ':' delimiter")
                else
                  '(value, r3) <- scan_once d (skip_ws r2) ;;
                  match skip_ws r3 with
                  | EmptyString => Raises (JSONDecodeError "Expecting ',' delimiter")
                  | String c4 r4 =>
                      if Ascii.eqb c4 "}" then Returns ([(key, value)], r4)
                      else if Ascii.eqb c4 "," then
                        '(more, rest) <- JSONObject d (skip_ws r4) ;;
                        Returns ((key, value) :: more, rest)
                      else Raises (JSONDecodeError "Expecting ',' delimiter")
                  end
            end
      end
  end

with JSONArray (depth : nat) (s : string) {struct depth}
    : outcome (list json * string) :=
  match depth with
  | O => Raises RecursionError
  | S d =>
      '(value, r1) <- scan_once d s ;;
      match skip_ws r1 with
      | EmptyString => Raises (JSONDecodeError "Expecting ',' delimiter")
      | String c2 r2 =>
          if Ascii.eqb c2 "]" then Returns ([value], r2)
          else if Ascii.eqb c2 "," then
            '(more, rest) <- JSONArray d (skip_ws r2) ;;
            Returns (value :: more, rest)
          else Raises (JSONDecodeError "Expecting ',' delimiter")
      end
  end.

(** [json.loads(s)]: one document, surrounded by optional whitespace. *)
Definition loads (s : string) : outcome json :=
  '(obj, rest) <- scan_once (S (String.length s)) (skip_ws s) ;;
  match skip_ws rest with
  | EmptyString => Returns obj
  | String _ _ => Raises (JSONDecodeError "Extra data")
  end.

End PyJson.

(** ** The two programs *)

(** What the HTTP layer sends back: [res.status(code).json(body)]. *)
Inductive response : Type :=
| Response (status : Z) (body : json).

Definition status_of (r : response) : Z :=
  match r with Response status _ => status end.

Definition body_of (r : response) : json :=
  match r with Response _ body => body end.

(** The second component of the validator's result: the payload, one of
    its two literal reasons, or [str(e)] of a caught exception. *)
Inductive info : Type :=
| Payload (payload : json)
| Reason (text : string)
| StrOf (e : exn).

(** [payload[key]]. *)
Definition getitem (payload : json) (key : string) : outcome json :=
  match payload with
  | JObj d =>
      match lookup key d with
      | Some v => Returns v
      | None => Raises (KeyError key)
      end
  | JStr _ => Raises (TypeError "string indices must be integers")
  | JArr _ => Raises (TypeError "list indices must be integers or slices, not str")
  | JNull | JBool _ | JNum _ => Raises (TypeError "object is not subscriptable")
  end.

(** [v != s] for a string [s]. *)
Definition ne_str (v : json) (s : string) : bool :=
  match v with
  | JStr t => negb (String.eqb t s)
  | _ => true
  end.

(** [v < n] for an integer [n]; a Python [bool] is an [int]. *)
Definition lt_int (v : json) (n : Z) : outcome bool :=
  match v with
  | JNum m => Returns (m <? n)
  | JBool b => Returns ((if b then 1 else 0) <? n)
  | _ => Raises (TypeError "'<' not supported between these instances")
  end.

(** The [payload] of [signToken], the text that is signed: "canonical JSON
    serialization (sorted keys for deterministic output)". *)
Definition canonical_json (payloadObj : object) : string :=
  JS.JSON_stringify (JObj payloadObj) (JS.sort (JS.Object_keys payloadObj)).

Section Protocol.

(** Ed25519: [nacl.sign.detached(message, secretKey)] and
    [VerifyKey(publicKey).verify(message, signature)], which raises
    [BadSignatureError] where [verify_detached] is [false]. *)
Variable sign_detached : string -> string -> string.
Variable verify_detached : string -> string -> string -> bool.

(** *** attestor.js *)

Definition signToken (payloadObj : object) (privateKey : string) : string :=
  let payload := canonical_json payloadObj in
  let sig := sign_detached payload privateKey in
  B64.encode payload ++ "." ++ B64.encode sig.

Definition validAgeBuckets : list string :=
  ["UNDER_13"; "13_15"; "16_17"; "18_PLUS"].

Definition ttl : Z := 60 * 60.

Definition tokenObj (tid : string) (age aud nonce : json) (now : Z) : object :=
  [ ("tid", JStr tid);
    ("att", JStr "attestor.example.org");
    ("age", age);
    ("aud", aud);
    ("iat", JNum now);
    ("exp", JNum (now + ttl));
    ("nonce", nonce);
    ("flags", JObj [("purpose", JStr "safety")]) ].

(** The [POST /issue_token] handler.  [secretKey] is [keypair.secretKey],
    [Date_now] the clock in milliseconds, [uuid] the value of [uuidv4()],
    [req_body] the parsed request body. *)
Definition issue_token (secretKey : string) (Date_now : Z) (uuid : string)
    (req_body : object) : response :=
  let age := lookup "age" req_body in
  let aud := lookup "aud" req_body in
  let nonce := lookup "nonce" req_body in
  if negb (JS.truthy age) || negb (JS.truthy aud) || negb (JS.truthy nonce) then
    Response 400 (JObj [("error", JStr "missing fields")])
  else if negb (JS.includes validAgeBuckets age) then
    Response 400 (JObj [("error", JStr "invalid age bucket")])
  else
    match age, aud, nonce with
    | Some age, Some aud, Some nonce =>
        let now := Date_now / 1000 in
        let obj := tokenObj uuid age aud nonce now in
        let compact := signToken obj secretKey in
        Response 201
          (JObj (("token", JStr compact)
                 :: match lookup "exp" obj with
                    | Some exp => [("expires_at", exp)]
                    | None => []
                    end))
    | _, _, _ =>
        (* not reached: an undefined field is falsy *)
        Response 400 (JObj [("error", JStr "missing fields")])
    end.

(** *** validator.py *)

Definition verify (public_key smessage signature : string) : outcome unit :=
  if verify_detached public_key smessage signature then Returns tt
  else Raises BadSignatureError.

(** The body of the [try] block.  [public_key] is the module's key,
    [now] the value of [int(time.time())]. *)
Definition validate_body (public_key : string) (now : Z)
    (compact_token expected_aud : string) : outcome (bool * info) :=
  '(payload_b64, sig_b64) <- unpack2 (split_dot compact_token) ;;
  payload_json <- B64.decode payload_b64 ;;
  sig <- B64.decode sig_b64 ;;
  _ <- verify public_key payload_json sig ;;
  payload <- PyJson.loads payload_json ;;
  aud <- getitem payload "aud" ;;
  if ne_str aud expected_aud then Returns (false, Reason "audience mismatch")
  else
    exp <- getitem payload "exp" ;;
    expired <- lt_int exp now ;;
    if expired then Returns (false, Reason "expired")
    else Returns (true, Payload payload).

Definition validate_compact_token (public_key : string) (now : Z)
    (compact_token expected_aud : string) : outcome (bool * info) :=
  try_except_Exception
    (validate_body public_key now compact_token expected_aud)
    (fun e => Returns (false, StrOf e)).

End Protocol.

(** ** Notions used to state the properties *)

(** The token and the expiry time of a [201] response. *)
Definition token_of (r : response) : option string :=
  match body_of r with
  | JObj members =>
      match lookup "token" members with
      | Some (JStr t) => Some t
      | _ => None
      end
  | _ => None
  end.

Definition expires_at_of (r : response) : option Z :=
  match body_of r with
  | JObj members =>
      match lookup "expires_at" members with
      | Some (JNum n) => Some n
      | _ => None
      end
  | _ => None
  end.

(** The claims a compact token carries: the validator's decoding steps
    (split, base64url, [json.loads]) without the signature check. *)
Definition decode_payload (compact_token : string) : outcome json :=
  '(payload_b64, sig_b64) <- unpack2 (split_dot compact_token) ;;
  payload_json <- B64.decode payload_b64 ;;
  PyJson.loads payload_json.

(** Two documents are logically identical when they differ at most in the
    order in which the members of their objects were inserted. *)
Unset Elimination Schemes.
Inductive json_eqv : json -> json -> Prop :=
| eqv_null : json_eqv JNull JNull
| eqv_bool (b : bool) : json_eqv (JBool b) (JBool b)
| eqv_num (n : Z) : json_eqv (JNum n) (JNum n)
| eqv_str (s : string) : json_eqv (JStr s) (JStr s)
| eqv_arr (l1 l2 : list json) :
    Forall2 json_eqv l1 l2 -> json_eqv (JArr l1) (JArr l2)
| eqv_obj (m1 m2 : object) :
    (forall k, lookup k m1 = None <-> lookup k m2 = None) ->
    (forall k v1 v2, lookup k m1 = Some v1 -> lookup k m2 = Some v2 -> json_eqv v1 v2) ->
    json_eqv (JObj m1) (JObj m2).
Set Elimination Schemes.

(** The strict order behind the default comparison of [sort]: the order
    of the UTF-16 code units. *)
Definition slt (a b : string) : Prop := JS.SortCompare a b = Lt.

(** The property list of every issued token, and the claims its wire form
    carries. *)
Definition issued_keys : list string :=
  ["age"; "att"; "aud"; "exp"; "flags"; "iat"; "nonce"; "tid"].

Definition wire_claims (tid : string) (age aud nonce : json) (now : Z) : json :=
  JObj [ ("age", JS.project issued_keys age);
         ("att", JStr "attestor.example.org");
         ("aud", JS.project issued_keys aud);
         ("exp", JNum (now + ttl));
         ("flags", JObj []);
         ("iat", JNum now);
         ("nonce", JS.project issued_keys nonce);
         ("tid", JStr tid) ].

(** A stand-in for Ed25519 with which the parameters are instantiated in
    the examples: the signature is the key followed by the message, and
    the public key is the secret key. *)
Module Toy.

Definition sign_detached (message secretKey : string) : string :=
  secretKey ++ message.

Definition verify_detached (publicKey message signature : string) : bool :=
  String.eqb signature (publicKey ++ message).

End Toy.

(** The request of the scenario: age 13_15, audience app.example. *)
Definition scenario_body : object :=
  [ ("age", JStr "13_15"); ("aud", JStr "app.example"); ("nonce", JStr "r4nd1") ].

(** The token the attestor emits for it at [t = 1000] under the stand-in
    scheme with key [k]. *)
Definition scenario_token : string :=
  signToken Toy.sign_detached
    (tokenObj "6f1c" (JStr "13_15") (JStr "app.example") (JStr "r4nd1") 1000) "k".

(** The claims that token carries on the wire. *)
Definition scenario_claims : json :=
  wire_claims "6f1c" (JStr "13_15") (JStr "app.example") (JStr "r4nd1") 1000.

(** A text of [n] characters, for requests of any length. *)
Fixpoint filler (n : nat) : string :=
  match n with
  | O => EmptyString
  | S n' => String "a" (filler n')
  end.

(** A request whose audience has [n] characters. *)
Definition long_request (n : nat) : object :=
  [ ("age", JStr "13_15"); ("aud", JStr (filler n)); ("nonce", JStr "r4nd1") ].

(** Modelled from the spec: the [TrustEntry] record of the data model.  The
    validator has no trust store; it holds the one [public_key]. *)
Record TrustEntry : Type := {
  attestor_id : string;
  key_id : string;
  public_key : string;
  valid_from : Z;
  valid_until : Z;
  revoked : bool
}.

(** Modelled from the spec: the preconditions of [issue], with length
    bounds on the audience and the nonce (the spec names no value; the
    handler has none). *)
Definition within_bound (bound : nat) (field : option json) : bool :=
  match field with
  | Some (JStr s) => negb (String.eqb s EmptyString) && (String.length s <=? bound)%nat
  | _ => false
  end.

Definition preconditions (aud_bound nonce_bound : nat) (req_body : object) : bool :=
  JS.includes validAgeBuckets (lookup "age" req_body)
  && within_bound aud_bound (lookup "aud" req_body)
  && within_bound nonce_bound (lookup "nonce" req_body).

(** What the handler checks instead. *)
Definition accepted_request (req_body : object) : bool :=
  JS.truthy (lookup "age" req_body)
  && JS.truthy (lookup "aud" req_body)
  && JS.truthy (lookup "nonce" req_body)
  && JS.includes validAgeBuckets (lookup "age" req_body).

(** A compact token is malformed when it does not split into exactly two
    segments at the separator, when a segment is not base64url, when the
    payload is not a JSON document, or when the document lacks a field
    the validator reads. *)
Inductive malformed (compact_token : string) : Prop :=
| bad_separators :
    List.length (split_dot compact_token) <> 2%nat -> malformed compact_token
| bad_payload_segment payload_b64 sig_b64 e :
    split_dot compact_token = [payload_b64; sig_b64] ->
    B64.decode payload_b64 = Raises e -> malformed compact_token
| bad_signature_segment payload_b64 sig_b64 e :
    split_dot compact_token = [payload_b64; sig_b64] ->
    B64.decode sig_b64 = Raises e -> malformed compact_token
| bad_json payload_b64 sig_b64 payload_json e :
    split_dot compact_token = [payload_b64; sig_b64] ->
    B64.decode payload_b64 = Returns payload_json ->
    PyJson.loads payload_json = Raises e -> malformed compact_token
| missing_field payload_b64 sig_b64 payload_json payload key e :
    split_dot compact_token = [payload_b64; sig_b64] ->
    B64.decode payload_b64 = Returns payload_json ->
    PyJson.loads payload_json = Returns payload ->
    In key ["aud"; "exp"] ->
    getitem payload key = Raises e -> malformed compact_token.

(** The claims about replay, revocation and input bounds as the spec
    states them, for the validator and the handler above.  A verdict
    "fails" when its first component is [false]. *)
Definition rejects_replay (verify_detached : string -> string -> string -> bool)
    (publicKey : string) : Prop :=
  forall now now2 token aud info,
    now <= now2 ->
    validate_compact_token verify_detached publicKey now token aud
    = Returns (true, info) ->
    exists info2,
      validate_compact_token verify_detached publicKey now2 token aud
      = Returns (false, info2).

Definition rejects_revoked (sign_detached : string -> string -> string)
    (verify_detached : string -> string -> string -> bool)
    (secretKey : string) : Prop :=
  forall (entry : TrustEntry) Date_now uuid req_body token aud now,
    revoked entry = true ->
    (forall message,
        verify_detached (public_key entry) message (sign_detached message secretKey)
        = true) ->
    token_of (issue_token sign_detached secretKey Date_now uuid req_body) = Some token ->
    exists info,
      validate_compact_token verify_detached (public_key entry) now token aud
      = Returns (false, info).

Definition rejects_beyond_bounds (sign_detached : string -> string -> string)
    (secretKey : string) : Prop :=
  exists aud_bound nonce_bound,
    forall Date_now uuid req_body,
      status_of (issue_token sign_detached secretKey Date_now uuid req_body) = 400
      <-> preconditions aud_bound nonce_bound req_body = false.

(** Two requests with the same content, in a different order of insertion
    at the top level and inside [flags]. *)
Definition claims_in_order : object :=
  [ ("aud", JStr "app.example");
    ("flags", JObj [("purpose", JStr "safety"); ("aud", JStr "x")]);
    ("exp", JNum 4600) ].

Definition claims_reordered : object :=
  [ ("exp", JNum 4600);
    ("flags", JObj [("aud", JStr "x"); ("purpose", JStr "safety")]);
    ("aud", JStr "app.example") ].

(** A trust entry for the key of the scenario, marked revoked. *)
Definition revoked_entry : TrustEntry :=
  {| attestor_id := "attestor.example.org"; key_id := "key-1"; public_key := "k";
     valid_from := 0; valid_until := 100000; revoked := true |}.

(** Characters that may follow a value inside a document, and those that
    begin a number or a value. *)
Definition delimiter (c : ascii) : bool :=
  Ascii.eqb c "," || Ascii.eqb c "}" || Ascii.eqb c "]".

Definition delimited (rest : string) : Prop :=
  match rest with
  | EmptyString => True
  | String c _ => delimiter c = true
  end.

Definition num_start (c : ascii) : bool :=
  Ascii.eqb c "-"
  || match PyJson.digit_of_char c with Some _ => true | None => false end.

Definition value_start (c : ascii) : bool :=
  negb (PyJson.is_ws c) && negb (Ascii.eqb c "]") && negb (Ascii.eqb c "}").

(** With property list [K], the decoder reads the text of [v] back as the
    projection of [v]. *)
Definition decodes (K : list string) (v : json) : Prop :=
  forall depth rest,
    (String.length (JS.serialize K v) <= depth)%nat ->
    delimited rest ->
    PyJson.scan_once depth (JS.serialize K v ++ rest)
    = Returns (JS.project K v, rest).

Definition serialized (K : list string) (sel : list (string * json))
    : list (string * string) :=
  map (fun kv => (fst kv, JS.serialize K (snd kv))) sel.

(** ** Further notions, for the properties beyond the claims *)

(** Every object inside [v], at any depth, has its keys among [K]. *)
Fixpoint keys_within (K : list string) (v : json) : bool :=
  match v with
  | JArr items => forallb (keys_within K) items
  | JObj members =>
      forallb (fun kv => existsb (String.eqb (fst kv)) K && keys_within K (snd kv))
        members
  | _ => true
  end.

(** A value that is neither an array nor an object. *)
Definition is_atom (v : json) : bool :=
  match v with
  | JArr _ | JObj _ => false
  | _ => true
  end.

(** The number of separators in a compact token. *)
Fixpoint count_dots (s : string) : nat :=
  match s with
  | EmptyString => O
  | String c r => if Ascii.eqb c "." then S (count_dots r) else count_dots r
  end.

(** What [POST /validate_token] sends back:
    [jsonify({"valid": valid, key: detail}), status], where [key] is
    [payload] when [valid] and [error] otherwise. *)
Inductive validation_response : Type :=
| ValidationResponse (status : Z) (valid : bool) (detail : info).

(** The [validate_token] view of the validator, for a request body whose
    [token] and [aud] are strings. *)
Definition validate_token (verify_detached : string -> string -> string -> bool)
    (public_key : string) (now : Z) (token appid : string)
    : outcome validation_response :=
  '(ok, info) <- validate_compact_token verify_detached public_key now token appid ;;
  if ok then Returns (ValidationResponse 200 true info)
  else Returns (ValidationResponse 400 false info).

(** A claim set whose nested object uses top-level key names only. *)
Definition closed_claims : object :=
  [ ("tid", JStr "6f1c"); ("aud", JStr "app.example"); ("exp", JNum 4600);
    ("scope", JObj [("exp", JNum 10); ("aud", JArr [JStr "x"; JNull])]) ].

(** *** The attestor as listed in the technical appendix

    The earlier listing of [attestor.js]: [signToken] serializes with
    [JSON.stringify(payloadObj)], without a replacer; the handler checks the
    presence of the three fields only and builds no [flags]. *)

(** [SerializeJSONProperty] without a property list: [SerializeJSONObject]
    takes the own enumerable keys of each object in the order of
    [EnumerableOwnProperties], which is the order of insertion for keys
    that are not array indices.  The member list of an object is read in
    that order; the keys the handler writes are no array indices. *)
Fixpoint serialize_own (v : json) : string :=
  match v with
  | JNull => "null"
  | JBool true => "true"
  | JBool false => "false"
  | JNum n => number_to_string n
  | JStr s => JS.QuoteJSONString s
  | JArr items => "[" ++ join_comma (map serialize_own items) ++ "]"
  | JObj members =>
      "{" ++ join_comma
               (map JS.member
                  (select (JS.property_list (JS.Object_keys members))
                     (map (fun kv => (fst kv, serialize_own (snd kv))) members)))
          ++ "}"
  end.

Section Appendix.

Variable sign_detached : string -> string -> string.

Definition signToken_appendix (payloadObj : object) (privateKey : string) : string :=
  let payload := serialize_own (JObj payloadObj) in
  let sig := sign_detached payload privateKey in
  B64.encode payload ++ "." ++ B64.encode sig.

Definition tokenObj_appendix (tid : string) (age aud nonce : json) (now : Z) : object :=
  [ ("tid", JStr tid);
    ("att", JStr "attestor.example.org");
    ("age", age);
    ("aud", aud);
    ("iat", JNum now);
    ("exp", JNum (now + 60 * 60));
    ("nonce", nonce) ].

Definition issue_token_appendix (secretKey : string) (Date_now : Z) (uuid : string)
    (req_body : object) : response :=
  let age := lookup "age" req_body in
  let aud := lookup "aud" req_body in
  let nonce := lookup "nonce" req_body in
  if negb (JS.truthy age) || negb (JS.truthy aud) || negb (JS.truthy nonce) then
    Response 400 (JObj [("error", JStr "missing fields")])
  else
    match age, aud, nonce with
    | Some age, Some aud, Some nonce =>
        let now := Date_now / 1000 in
        let obj := tokenObj_appendix uuid age aud nonce now in
        let compact := signToken_appendix obj secretKey in
        Response 201 (JObj [("token", JStr compact)])
    | _, _, _ =>
        (* not reached: an undefined field is falsy *)
        Response 400 (JObj [("error", JStr "missing fields")])
    end.

End Appendix.

(** No string occurs twice in [l]. *)
Fixpoint nodupb (l : list string) : bool :=
  match l with
  | [] => true
  | x :: r => negb (existsb (String.eqb x) r) && nodupb r
  end.

(** Every object inside [v] has pairwise distinct keys, as every
    JavaScript object has. *)
Fixpoint distinct_keys (v : json) : bool :=
  match v with
  | JArr items => forallb distinct_keys items
  | JObj members =>
      nodupb (map fst members) && forallb (fun kv => distinct_keys (snd kv)) members
  | _ => true
  end.

(** The decoder reads the text of [v] back as [v]. *)
Definition decodes_own (v : json) : Prop :=
  forall depth rest,
    (String.length (serialize_own v) <= depth)%nat ->
    delimited rest ->
    PyJson.scan_once depth (serialize_own v ++ rest) = Returns (v, rest).

(** A request with an age that is no bucket and a nested nonce. *)
Definition raw_age_body : object :=
  [ ("age", JStr "42"); ("aud", JStr "app.example");
    ("nonce", JObj [("salt", JStr "r4nd1"); ("n", JNum 7)]) ].

(** A payload object with nothing but an audience and an expiry. *)
Definition bare_claims : object :=
  [ ("aud", JStr "app.example"); ("exp", JNum 4600) ].

Ltac divlia := zify; Z.to_euclidean_division_equations; lia.

(** * Properties *)

(** ** base64url and the separator *)

Lemma value_digit n : (n < 64)%N -> B64.value (B64.digit n) = Returns n.
Proof.
  intros H.
  assert (A : forallb (fun k => match B64.value (B64.digit k) with
                                | Returns m => N.eqb m k | Raises _ => false end)
                (map N.of_nat (seq 0 64)) = true) by (vm_compute; reflexivity).
  rewrite forallb_forall in A.
  specialize (A n).
  destruct (B64.value (B64.digit n)) as [m|e].
  - f_equal. apply N.eqb_eq. apply A. apply in_map_iff. exists (N.to_nat n).
    split; [lia | apply in_seq; lia].
  - discriminate A. apply in_map_iff. exists (N.to_nat n).
    split; [lia | apply in_seq; lia].
Qed.

Lemma digit_not_dot n : Ascii.eqb (B64.digit n) "." = false.
Proof.
  destruct (N.ltb_spec n 64) as [H|H].
  - assert (A : forallb (fun k => negb (Ascii.eqb (B64.digit k) "."))
                (map N.of_nat (seq 0 64)) = true) by (vm_compute; reflexivity).
    rewrite forallb_forall in A. apply negb_true_iff. apply A.
    apply in_map_iff. exists (N.to_nat n). split; [lia | apply in_seq; lia].
  - unfold B64.digit. replace (N.to_nat n) with (64 + (N.to_nat n - 64))%nat by lia.
    reflexivity.
Qed.

(** Decoding undoes encoding. *)
Lemma decode_encode s : B64.decode (B64.encode s) = Returns s.
Proof.
  remember (String.length s) as n eqn:Hn. revert s Hn.
  induction n as [n IH] using lt_wf_ind. intros s Hn.
  destruct s as [|a [|b [|c rest]]].
  - reflexivity.
  - cbn [B64.encode B64.decode].
    pose proof (N_ascii_bounded a) as Ha. unfold B64.code.
    rewrite !value_digit by divlia. cbn [Py.bind].
    unfold B64.byte.
    replace ((N_of_ascii a * 16 / 64 * 64 + (N_of_ascii a * 16) mod 64) / 16)%N
      with (N_of_ascii a) by divlia.
    now rewrite ascii_N_embedding.
  - cbn [B64.encode B64.decode].
    pose proof (N_ascii_bounded a) as Ha. pose proof (N_ascii_bounded b) as Hb.
    unfold B64.code.
    rewrite !value_digit by divlia. cbn [Py.bind]. unfold B64.byte.
    set (n0 := ((N_of_ascii a * 256 + N_of_ascii b) * 4)%N).
    replace (n0 / 4096 * 4096 + (n0 / 64) mod 64 * 64 + n0 mod 64)%N with n0 by divlia.
    replace (n0 / 1024)%N with (N_of_ascii a) by (subst n0; divlia).
    replace ((n0 / 4) mod 256)%N with (N_of_ascii b) by (subst n0; divlia).
    now rewrite !ascii_N_embedding.
  - cbn [B64.encode B64.decode].
    pose proof (N_ascii_bounded a) as Ha. pose proof (N_ascii_bounded b) as Hb.
    pose proof (N_ascii_bounded c) as Hc.
    unfold B64.code.
    set (n0 := (N_of_ascii a * 65536 + N_of_ascii b * 256 + N_of_ascii c)%N).
    rewrite !value_digit by (subst n0; divlia). cbn [Py.bind].
    rewrite (IH (String.length rest)) by (subst n; simpl; lia || reflexivity).
    cbn [Py.bind]. unfold B64.byte.
    replace (n0 / 262144 * 262144 + (n0 / 4096) mod 64 * 4096 + (n0 / 64) mod 64 * 64 + n0 mod 64)%N
      with n0 by divlia.
    replace (n0 / 65536)%N with (N_of_ascii a) by (subst n0; divlia).
    replace ((n0 / 256) mod 256)%N with (N_of_ascii b) by (subst n0; divlia).
    replace (n0 mod 256)%N with (N_of_ascii c) by (subst n0; divlia).
    now rewrite !ascii_N_embedding.
Qed.

(** No encoding contains the separator of the compact form. *)
Lemma encode_no_dot s : no_dot (B64.encode s) = true.
Proof.
  remember (String.length s) as n eqn:Hn. revert s Hn.
  induction n as [n IH] using lt_wf_ind. intros s Hn.
  destruct s as [|a [|b [|c rest]]]; cbn [B64.encode no_dot];
    rewrite ?digit_not_dot; cbn [negb andb]; try reflexivity.
  apply (IH (String.length rest)); [subst n; simpl; lia | reflexivity].
Qed.

Lemma split_dot_no_dot a : no_dot a = true -> split_dot a = [a].
Proof.
  induction a as [|c r IH]; cbn [no_dot split_dot]; [reflexivity|].
  intros H. apply andb_true_iff in H. destruct H as [Hc Hr].
  apply negb_true_iff in Hc. rewrite Hc, (IH Hr). reflexivity.
Qed.

(** A compact token splits into its two segments. *)
Lemma split_dot_two a b :
  no_dot a = true -> no_dot b = true -> split_dot (a ++ "." ++ b) = [a; b].
Proof.
  intros Ha Hb. induction a as [|c r IH].
  - cbn. now rewrite split_dot_no_dot.
  - cbn [no_dot] in Ha. apply andb_true_iff in Ha. destruct Ha as [Hc Hr].
    apply negb_true_iff in Hc. cbn [append split_dot]. rewrite Hc.
    cbn [append] in IH. now rewrite (IH Hr).
Qed.

(** ** Strings and numbers of a document *)

(** The decoder reads one quoted character back as that character. *)
Lemma scanstring_quote_char c tail :
  PyJson.scanstring (JS.quote_char c ++ tail) =
  Py.bind (PyJson.scanstring tail) (fun x => match x with (t, rest) => Returns (String c t, rest) end).
Proof.
  destruct c as [[] [] [] [] [] [] [] []]; reflexivity.
Qed.

Lemma append_assoc (a b c : string) : (a ++ b) ++ c = a ++ (b ++ c).
Proof. induction a; cbn; congruence. Qed.

Lemma scanstring_quote_body s rest :
  PyJson.scanstring (JS.quote_body s ++ String dquote rest) = Returns (s, rest).
Proof.
  induction s as [|c r IH]; [reflexivity|].
  cbn [JS.quote_body]. rewrite append_assoc, scanstring_quote_char, IH. reflexivity.
Qed.

Lemma nzhead_head u : match nzhead u with D0 _ => False | _ => True end.
Proof. induction u; cbn; auto. Qed.

Lemma to_uint_head p : match Pos.to_uint p with D0 _ | Nil => False | _ => True end.
Proof.
  pose proof (DecimalPos.Unsigned.to_of (Pos.to_uint p)) as H.
  rewrite DecimalPos.Unsigned.of_to in H. cbn [N.to_uint] in H.
  pose proof (DecimalPos.Unsigned.to_uint_nonzero p) as Hz.
  pose proof (nzhead_head (Pos.to_uint p)) as Hh.
  unfold unorm in H.
  destruct (nzhead (Pos.to_uint p)) eqn:E; rewrite H; try exact I; try contradiction.
Qed.

Lemma scan_digits_string_of_uint u rest :
  match rest with
  | EmptyString => True
  | String c _ => PyJson.digit_of_char c = None
  end ->
  PyJson.scan_digits (NilEmpty.string_of_uint u ++ rest) = (u, rest).
Proof.
  intros Hrest. induction u; cbn [NilEmpty.string_of_uint append PyJson.scan_digits];
    try (change (PyJson.digit_of_char "0") with (Some D0));
    try (rewrite IHu; reflexivity).
  destruct rest as [|c r]; [reflexivity|]. cbn. now rewrite Hrest.
Qed.

Lemma delimiter_cases c : delimiter c = true -> c = ","%char \/ c = "}"%char \/ c = "]"%char.
Proof.
  unfold delimiter. rewrite !orb_true_iff, !Ascii.eqb_eq. tauto.
Qed.

Lemma finish_number_delimited neg u rest :
  delimited rest ->
  PyJson.finish_number neg u rest = Returns (Z.of_int (if neg then Neg u else Pos u), rest).
Proof.
  destruct rest as [|c r]; [reflexivity|]. cbn [delimited]. intros H.
  destruct (delimiter_cases c H) as [-> | [-> | ->]]; reflexivity.
Qed.

Lemma delimited_not_digit rest :
  delimited rest ->
  match rest with
  | EmptyString => True
  | String c _ => PyJson.digit_of_char c = None
  end.
Proof.
  destruct rest as [|c r]; [trivial|]. cbn [delimited]. intros H.
  destruct (delimiter_cases c H) as [-> | [-> | ->]]; reflexivity.
Qed.

Lemma scan_number_uint (neg : bool) u rest :
  match u with D0 _ | Nil => False | _ => True end ->
  delimited rest ->
  PyJson.scan_number ((if neg then "-" else EmptyString) ++ NilEmpty.string_of_uint u ++ rest)
  = Returns (Z.of_int (if neg then Neg u else Pos u), rest).
Proof.
  intros Hu Hrest.
  assert (E : PyJson.scan_number ((if neg then "-" else EmptyString) ++ NilEmpty.string_of_uint u ++ rest)
              = let '(u', rest') := PyJson.scan_digits (NilEmpty.string_of_uint u ++ rest) in
                PyJson.finish_number neg u' rest').
  { destruct u; try contradiction; destruct neg; reflexivity. }
  rewrite E, scan_digits_string_of_uint by now apply delimited_not_digit.
  now apply finish_number_delimited.
Qed.

Lemma string_of_uint_head u :
  match u with D0 _ | Nil => False | _ => True end ->
  NilZero.string_of_uint u = NilEmpty.string_of_uint u.
Proof. destruct u; intros H; try contradiction; reflexivity. Qed.

(** The decoder reads the numeral of [n] back as [n]. *)
Lemma scan_number_to_string n rest :
  delimited rest ->
  PyJson.scan_number (number_to_string n ++ rest) = Returns (n, rest).
Proof.
  intros Hrest. unfold number_to_string.
  destruct n as [|p|p].
  - cbn. now rewrite finish_number_delimited.
  - pose proof (to_uint_head p) as Hp.
    change (Z.to_int (Z.pos p)) with (Pos (Pos.to_uint p)).
    cbn [NilZero.string_of_int]. rewrite (string_of_uint_head _ Hp).
    pose proof (scan_number_uint false (Pos.to_uint p) rest Hp Hrest) as E.
    cbn [append] in E. rewrite E.
    do 2 f_equal. exact (DecimalZ.of_to (Z.pos p)).
  - pose proof (to_uint_head p) as Hp.
    change (Z.to_int (Z.neg p)) with (Neg (Pos.to_uint p)).
    cbn [NilZero.string_of_int]. rewrite (string_of_uint_head _ Hp).
    pose proof (scan_number_uint true (Pos.to_uint p) rest Hp Hrest) as E.
    cbn [append] in E. cbn [append]. rewrite E.
    do 2 f_equal. exact (DecimalZ.of_to (Z.neg p)).
Qed.

Lemma num_start_cases c :
  num_start c = true ->
  In c ["-"; "0"; "1"; "2"; "3"; "4"; "5"; "6"; "7"; "8"; "9"]%char.
Proof.
  destruct c as [[] [] [] [] [] [] [] []]; cbn; intros H; try discriminate H; tauto.
Qed.

Lemma scan_once_number d c r :
  num_start c = true ->
  PyJson.scan_once (S d) (String c r) =
  ('(n, rest) <- PyJson.scan_number (String c r) ;; Returns (JNum n, rest)).
Proof.
  intros H. apply num_start_cases in H. cbn [In] in H.
  repeat (destruct H as [<- | H]; [reflexivity|]). contradiction.
Qed.

Lemma number_to_string_head n :
  exists c r, number_to_string n = String c r /\ num_start c = true.
Proof.
  unfold number_to_string. destruct n as [|p|p].
  - now exists "0"%char, EmptyString.
  - change (Z.to_int (Z.pos p)) with (Pos (Pos.to_uint p)).
    pose proof (to_uint_head p) as Hp. cbn [NilZero.string_of_int].
    destruct (Pos.to_uint p); try contradiction; cbn; eauto.
  - now exists "-"%char, (NilZero.string_of_uint (Pos.to_uint p)).
Qed.

(** ** Objects, arrays and the property list *)

Lemma length_append (a b : string) :
  String.length (a ++ b) = (String.length a + String.length b)%nat.
Proof. induction a; cbn; congruence. Qed.

Lemma lookup_map {A B : Type} (f : A -> B) P (m : list (string * A)) :
  lookup P (map (fun kv => (fst kv, f (snd kv))) m) = option_map f (lookup P m).
Proof.
  induction m as [|[k v] m IH]; [reflexivity|].
  cbn. destruct (String.eqb P k); [reflexivity | exact IH].
Qed.

Lemma select_map {A B : Type} (f : A -> B) keys (m : list (string * A)) :
  select keys (map (fun kv => (fst kv, f (snd kv))) m)
  = map (fun kv => (fst kv, f (snd kv))) (select keys m).
Proof.
  induction keys as [|P keys IH]; [reflexivity|].
  cbn [select]. rewrite lookup_map.
  destruct (lookup P m); cbn; now rewrite IH.
Qed.

Lemma lookup_In {A : Type} P (m : list (string * A)) x :
  lookup P m = Some x -> In (P, x) m.
Proof.
  induction m as [|[k v] m IH]; [discriminate|].
  cbn. destruct (String.eqb_spec P k) as [->|_].
  - intros [= ->]. now left.
  - intros H. right. now apply IH.
Qed.

Lemma select_In {A : Type} keys (m : list (string * A)) kv :
  In kv (select keys m) -> In kv m /\ In (fst kv) keys.
Proof.
  induction keys as [|P keys IH]; [contradiction|].
  cbn [select]. destruct (lookup P m) eqn:E.
  - intros [<- | H].
    + split; [now apply lookup_In | now left].
    + destruct (IH H). split; [assumption | now right].
  - intros H. destruct (IH H). split; [assumption | now right].
Qed.

Lemma select_keys_NoDup {A : Type} keys (m : list (string * A)) :
  NoDup keys -> NoDup (map fst (select keys m)).
Proof.
  induction 1 as [|P keys Hnot Hnd IH]; [constructor|].
  cbn [select]. destruct (lookup P m); [|exact IH].
  cbn. constructor; [|exact IH].
  intros Hin. apply in_map_iff in Hin. destruct Hin as [kv [<- Hkv]].
  apply select_In in Hkv. tauto.
Qed.

Lemma dict_set_fresh d k v :
  ~ In k (map fst d) -> PyJson.dict_set d k v = (d ++ [(k, v)])%list.
Proof.
  induction d as [|[k' v'] d IH]; [reflexivity|].
  cbn. intros H. destruct (String.eqb_spec k k') as [->|_]; [tauto|].
  rewrite IH; tauto.
Qed.

Lemma dict_NoDup_from acc pairs :
  NoDup (map fst (acc ++ pairs)%list) ->
  fold_left (fun d kv => PyJson.dict_set d (fst kv) (snd kv)) pairs acc = (acc ++ pairs)%list.
Proof.
  revert acc. induction pairs as [|[k v] pairs IH]; intros acc H.
  - now rewrite List.app_nil_r.
  - cbn [fold_left fst snd].
    assert (Hk : ~ In k (map fst acc)).
    { rewrite map_app in H. apply NoDup_remove_2 in H. cbn in H.
      intros Hin. apply H. apply in_or_app. now left. }
    rewrite (dict_set_fresh acc k v Hk), IH; rewrite <- List.app_assoc; [reflexivity | exact H].
Qed.

(** [dict] leaves a list of pairs with distinct keys as it is. *)
Lemma dict_NoDup pairs : NoDup (map fst pairs) -> PyJson.dict pairs = pairs.
Proof. intros H. unfold PyJson.dict. now rewrite dict_NoDup_from. Qed.

Lemma skip_ws_start c r : PyJson.is_ws c = false -> PyJson.skip_ws (String c r) = String c r.
Proof. intros H. cbn. now rewrite H. Qed.

Lemma num_start_value_start c : num_start c = true -> value_start c = true.
Proof.
  intros H. apply num_start_cases in H. cbn [In] in H.
  repeat (destruct H as [<- | H]; [reflexivity|]). contradiction.
Qed.

Lemma serialize_head K v :
  exists c r, JS.serialize K v = String c r /\ value_start c = true.
Proof.
  destruct v as [|[]|n|s|items|members]; cbn [JS.serialize]; try (do 2 eexists; split; reflexivity).
  destruct (number_to_string_head n) as [c [r [E H]]].
  exists c, r. split; [exact E | now apply num_start_value_start].
Qed.

Lemma scan_once_string d r :
  PyJson.scan_once (S d) (String dquote r) =
  ('(str, rest) <- PyJson.scanstring r ;; Returns (JStr str, rest)).
Proof. reflexivity. Qed.

Lemma scan_once_object d r :
  PyJson.scan_once (S d) (String "{" r) =
  match PyJson.skip_ws r with
  | String c1 r1 =>
      if Ascii.eqb c1 "}" then Returns (JObj [], r1)
      else '(pairs, rest) <- PyJson.JSONObject d (String c1 r1) ;;
           Returns (JObj (PyJson.dict pairs), rest)
  | EmptyString =>
      Raises (JSONDecodeError "Expecting property name enclosed in double quotes")
  end.
Proof. reflexivity. Qed.

Lemma scan_once_array d r :
  PyJson.scan_once (S d) (String "[" r) =
  match PyJson.skip_ws r with
  | String c1 r1 =>
      if Ascii.eqb c1 "]" then Returns (JArr [], r1)
      else '(items, rest) <- PyJson.JSONArray d (String c1 r1) ;;
           Returns (JArr items, rest)
  | EmptyString => PyJson.expecting_value
  end.
Proof. reflexivity. Qed.

Lemma JSONArray_step d s :
  PyJson.JSONArray (S d) s =
  ('(value, r1) <- PyJson.scan_once d s ;;
   match PyJson.skip_ws r1 with
   | EmptyString => Raises (JSONDecodeError "Expecting ',' delimiter")
   | String c2 r2 =>
       if Ascii.eqb c2 "]" then Returns ([value], r2)
       else if Ascii.eqb c2 "," then
         '(more, rest) <- PyJson.JSONArray d (PyJson.skip_ws r2) ;;
         Returns (value :: more, rest)
       else Raises (JSONDecodeError "Expecting ',' delimiter")
   end).
Proof. reflexivity. Qed.

Lemma JSONObject_step d r :
  PyJson.JSONObject (S d) (String dquote r) =
  ('(key, r1) <- PyJson.scanstring r ;;
   match PyJson.skip_ws r1 with
   | EmptyString => Raises (JSONDecodeError "Expecting ':' delimiter")
   | String c2 r2 =>
       if negb (Ascii.eqb c2 ":") then
         Raises (JSONDecodeError "Expecting ':' delimiter")
       else
         '(value, r3) <- PyJson.scan_once d (PyJson.skip_ws r2) ;;
         match PyJson.skip_ws r3 with
         | EmptyString => Raises (JSONDecodeError "Expecting ',' delimiter")
         | String c4 r4 =>
             if Ascii.eqb c4 "}" then Returns ([(key, value)], r4)
             else if Ascii.eqb c4 "," then
               '(more, rest) <- PyJson.JSONObject d (PyJson.skip_ws r4) ;;
               Returns ((key, value) :: more, rest)
             else Raises (JSONDecodeError "Expecting ',' delimiter")
         end
   end).
Proof. reflexivity. Qed.

(** ** Reading back what [JSON.stringify] wrote *)

Section Roundtrip.

Variable K : list string.
Hypothesis K_NoDup : NoDup K.

Lemma skip_ws_serialize v rest :
  PyJson.skip_ws (JS.serialize K v ++ rest) = JS.serialize K v ++ rest.
Proof.
  destruct (serialize_head K v) as [c [r [E H]]]. rewrite E. cbn [append].
  apply skip_ws_start. unfold value_start in H.
  rewrite !andb_true_iff, !negb_true_iff in H. tauto.
Qed.

Lemma JSONArray_items items :
  Forall (decodes K) items -> items <> [] ->
  forall depth rest,
    (String.length (join_comma (map (JS.serialize K) items)) < depth)%nat ->
    PyJson.JSONArray depth
      (join_comma (map (JS.serialize K) items) ++ String "]" rest)
    = Returns (map (JS.project K) items, rest).
Proof.
  induction 1 as [|v items Hv Hitems IH]; [congruence|].
  intros _ depth rest Hdepth.
  destruct depth as [|d]; [lia|]. rewrite JSONArray_step.
  destruct items as [|w items].
  - cbn [map join_comma] in *.
    rewrite Hv by (lia || exact eq_refl). cbn.
    reflexivity.
  - change (join_comma (map (JS.serialize K) (v :: w :: items)))
      with (JS.serialize K v ++ "," ++ join_comma (map (JS.serialize K) (w :: items))) in *.
    rewrite length_append, length_append in Hdepth. cbn [String.length] in Hdepth.
    rewrite append_assoc. rewrite Hv by (lia || exact eq_refl).
    cbn [Py.bind]. rewrite append_assoc. cbn [append PyJson.skip_ws].
    change (PyJson.is_ws ",") with false. cbn iota.
    change (Ascii.eqb "," "]") with false. change (Ascii.eqb "," ",") with true. cbn iota.
    destruct (serialize_head K w) as [c [r [E H]]].
    assert (Hs : forall tl, PyJson.skip_ws (join_comma (map (JS.serialize K) (w :: items)) ++ tl)
                 = join_comma (map (JS.serialize K) (w :: items)) ++ tl).
    { intros tl. destruct items; cbn [map join_comma]; rewrite ?append_assoc;
        apply skip_ws_serialize. }
    rewrite Hs, IH by (congruence || lia). reflexivity.
Qed.

Lemma member_text P str tail :
  JS.member (P, str) ++ tail
  = String dquote (JS.quote_body P ++ String dquote (String ":" (str ++ tail))).
Proof.
  unfold JS.member, JS.QuoteJSONString. cbn [fst snd append].
  now rewrite !append_assoc.
Qed.

Lemma length_member P str : (String.length str < String.length (JS.member (P, str)))%nat.
Proof.
  unfold JS.member, JS.QuoteJSONString. cbn [fst snd append String.length].
  rewrite !length_append. cbn [String.length]. lia.
Qed.

Lemma JSONObject_members sel :
  Forall (fun kv => decodes K (snd kv)) sel -> sel <> [] ->
  forall depth rest,
    (String.length (join_comma (map JS.member (serialized K sel))) < depth)%nat ->
    PyJson.JSONObject depth
      (join_comma (map JS.member (serialized K sel)) ++ String "}" rest)
    = Returns (map (fun kv => (fst kv, JS.project K (snd kv))) sel, rest).
Proof.
  induction 1 as [|[P v] sel Hv Hsel IH]; [congruence|].
  intros _ depth rest Hdepth. cbn [snd] in Hv.
  destruct depth as [|d]; [lia|].
  pose proof (length_member P (JS.serialize K v)) as Hlen.
  destruct sel as [|[Q w] sel].
  - cbn [serialized map join_comma fst snd] in *.
    rewrite member_text, JSONObject_step, scanstring_quote_body.
    cbn [Py.bind PyJson.skip_ws]. change (PyJson.is_ws ":") with false. cbn iota.
    change (Ascii.eqb ":" ":") with true. cbn [negb].  cbn iota.
    rewrite skip_ws_serialize, Hv by (lia || exact eq_refl). cbn. reflexivity.
  - change (join_comma (map JS.member (serialized K ((P, v) :: (Q, w) :: sel))))
      with (JS.member (P, JS.serialize K v) ++ ","
              ++ join_comma (map JS.member (serialized K ((Q, w) :: sel)))) in *.
    rewrite length_append in Hdepth. cbn [append String.length] in Hdepth.
    rewrite append_assoc, member_text, JSONObject_step, scanstring_quote_body.
    cbn [Py.bind PyJson.skip_ws]. change (PyJson.is_ws ":") with false. cbn iota.
    change (Ascii.eqb ":" ":") with true. cbn [negb]. cbn iota.
    rewrite skip_ws_serialize, Hv by (lia || exact eq_refl).
    cbn [Py.bind append PyJson.skip_ws]. change (PyJson.is_ws ",") with false. cbn iota.
    change (Ascii.eqb "," "}") with false. change (Ascii.eqb "," ",") with true. cbn iota.
    assert (Hs : forall tl, PyJson.skip_ws
                   (join_comma (map JS.member (serialized K ((Q, w) :: sel))) ++ tl)
                 = join_comma (map JS.member (serialized K ((Q, w) :: sel))) ++ tl).
    { intros tl. destruct sel; cbn [serialized map join_comma]; rewrite ?append_assoc;
        rewrite member_text; reflexivity. }
    rewrite Hs, IH by (congruence || lia). reflexivity.
Qed.

Lemma select_decodes members :
  Forall (fun kv => decodes K (snd kv)) members ->
  Forall (fun kv => decodes K (snd kv)) (select K members).
Proof.
  rewrite !Forall_forall. intros H kv Hin. apply H. now apply select_In in Hin.
Qed.

(** Every document is read back as its projection on [K]. *)
Theorem scan_once_serialize v : decodes K v.
Proof.
  induction v as [| b | n | s | items IH | members IH] using json_ind;
    intros depth rest Hdepth Hrest.
  - destruct depth; [cbn in Hdepth; lia | reflexivity].
  - destruct depth; [destruct b; cbn in Hdepth; lia | destruct b; reflexivity].
  - cbn [JS.serialize JS.project] in *.
    destruct (number_to_string_head n) as [c [r [E H]]].
    destruct depth; [rewrite E in Hdepth; cbn in Hdepth; lia|].
    rewrite E. cbn [append]. rewrite (scan_once_number _ _ _ H).
    change (String c (r ++ rest)) with (String c r ++ rest).
    rewrite <- E, scan_number_to_string by assumption. reflexivity.
  - cbn [JS.serialize JS.project] in *. unfold JS.QuoteJSONString in *.
    destruct depth; [cbn in Hdepth; lia|].
    cbn [append]. rewrite scan_once_string, append_assoc. cbn [append].
    now rewrite scanstring_quote_body.
  - cbn [JS.serialize JS.project] in *.
    rewrite length_append in Hdepth. cbn [append String.length] in Hdepth.
    rewrite length_append in Hdepth. cbn [String.length] in Hdepth.
    destruct depth as [|d]; [lia|].
    cbn [append]. rewrite scan_once_array, append_assoc. cbn [append].
    destruct items as [|w items].
    + reflexivity.
    + assert (Hs : forall tl, PyJson.skip_ws
                     (join_comma (map (JS.serialize K) (w :: items)) ++ tl)
                   = join_comma (map (JS.serialize K) (w :: items)) ++ tl).
      { intros tl. destruct items; cbn [map join_comma]; rewrite ?append_assoc;
          apply skip_ws_serialize. }
      rewrite Hs.
      destruct (serialize_head K w) as [c [r [E H]]].
      assert (Hj : exists r', join_comma (map (JS.serialize K) (w :: items)) = String c r').
      { destruct items; cbn [map join_comma]; rewrite E; cbn [append]; eauto. }
      destruct Hj as [r' Hj].
      assert (Hc : Ascii.eqb c "]" = false).
      { unfold value_start in H. rewrite !andb_true_iff, !negb_true_iff in H. tauto. }
      pose proof (JSONArray_items (w :: items) IH ltac:(congruence) d rest ltac:(lia)) as HA.
      rewrite Hj in *. cbn [append] in *. rewrite Hc, HA. reflexivity.
  - cbn [JS.serialize JS.project] in *.
    rewrite !select_map in *. fold (serialized K (select K members)) in *.
    rewrite length_append in Hdepth. cbn [append String.length] in Hdepth.
    rewrite length_append in Hdepth. cbn [String.length] in Hdepth.
    destruct depth as [|d]; [lia|].
    cbn [append]. rewrite scan_once_object, append_assoc. cbn [append].
    pose proof (select_decodes members IH) as Hsel.
    pose proof (select_keys_NoDup K members K_NoDup) as Hnd.
    destruct (select K members) as [|[P w] sel] eqn:Esel.
    + reflexivity.
    + pose proof (JSONObject_members ((P, w) :: sel) Hsel ltac:(congruence) d rest ltac:(lia)) as HO.
      assert (Hj : exists r', join_comma (map JS.member (serialized K ((P, w) :: sel)))
                              = String dquote r').
      { destruct sel; cbn [serialized map join_comma]; unfold JS.member, JS.QuoteJSONString;
          cbn [append]; eauto. }
      destruct Hj as [r' Hj]. rewrite Hj in *. cbn [append] in *.
      change (PyJson.skip_ws (String dquote (r' ++ String "}" rest)))
        with (String dquote (r' ++ String "}" rest)).
      cbn iota. change (Ascii.eqb dquote "}") with false. cbn iota.
      rewrite HO. cbn [Py.bind].
      rewrite dict_NoDup; [reflexivity|].
      rewrite map_map. cbn [fst]. exact Hnd.
Qed.

End Roundtrip.


Lemma existsb_eqb_In k l : existsb (String.eqb k) l = true <-> In k l.
Proof.
  rewrite existsb_exists. split.
  - intros [x [Hin Hx]]. apply String.eqb_eq in Hx. now subst.
  - intros H. exists k. split; [assumption | apply String.eqb_refl].
Qed.

Lemma property_list_from_In seen l y :
  In y (JS.property_list_from seen l) <-> In y l /\ ~ In y seen.
Proof.
  revert seen. induction l as [|k l IH]; intros seen; cbn [JS.property_list_from].
  - cbn. tauto.
  - destruct (existsb (String.eqb k) seen) eqn:E.
    + apply existsb_eqb_In in E. rewrite IH. cbn [In].
      split; [tauto|]. intros [[<- | H] Hn]; tauto.
    + assert (Hk : ~ In k seen) by (rewrite <- existsb_eqb_In, E; discriminate).
      cbn [In]. rewrite IH. cbn [In].
      destruct (String.string_dec k y) as [<- | Hne]; tauto.
Qed.

Lemma property_list_from_NoDup seen l : NoDup (JS.property_list_from seen l).
Proof.
  revert seen. induction l as [|k l IH]; intros seen; cbn [JS.property_list_from].
  - constructor.
  - destruct (existsb (String.eqb k) seen); [apply IH|].
    constructor; [|apply IH]. rewrite property_list_from_In. cbn [In]. tauto.
Qed.

Lemma property_list_NoDup l : NoDup (JS.property_list l).
Proof. apply property_list_from_NoDup. Qed.

Lemma append_empty (s : string) : s ++ "" = s.
Proof. induction s; cbn; congruence. Qed.

(** [json.loads] reads the text that [JSON.stringify] wrote with an array
    replacer back as the projection of the value on the property list. *)
Theorem loads_stringify value replacer :
  PyJson.loads (JS.JSON_stringify value replacer)
  = Returns (JS.project (JS.property_list replacer) value).
Proof.
  unfold JS.JSON_stringify, PyJson.loads.
  set (K := JS.property_list replacer).
  pose proof (scan_once_serialize K (property_list_NoDup replacer) value) as H.
  pose proof (skip_ws_serialize K value "") as Hs. rewrite append_empty in Hs.
  rewrite Hs. specialize (H (S (String.length (JS.serialize K value))) "").
  rewrite append_empty in H. rewrite H by (cbn; auto). reflexivity.
Qed.

Lemma issued_property_list tid age aud nonce now :
  JS.property_list (JS.sort (JS.Object_keys (tokenObj tid age aud nonce now)))
  = issued_keys.
Proof. reflexivity. Qed.

Lemma loads_issued tid age aud nonce now :
  PyJson.loads (canonical_json (tokenObj tid age aud nonce now))
  = Returns (wire_claims tid age aud nonce now).
Proof.
  unfold canonical_json. rewrite loads_stringify, issued_property_list. reflexivity.
Qed.

Lemma decode_payload_signed sign payloadObj privateKey :
  decode_payload (signToken sign payloadObj privateKey)
  = PyJson.loads (canonical_json payloadObj).
Proof.
  unfold decode_payload, signToken.
  rewrite split_dot_two by apply encode_no_dot. cbn [unpack2 Py.bind].
  rewrite decode_encode. reflexivity.
Qed.

(** ** Issued tokens *)

Section Issued.

Variable sign_detached : string -> string -> string.
Variable verify_detached : string -> string -> string -> bool.
Variables secretKey publicKey : string.

Lemma issue_token_accepted Date_now uuid req_body :
  accepted_request req_body = true ->
  exists age aud nonce,
    lookup "age" req_body = Some age /\
    lookup "aud" req_body = Some aud /\
    lookup "nonce" req_body = Some nonce /\
    issue_token sign_detached secretKey Date_now uuid req_body
    = Response 201
        (JObj [ ("token",
                 JStr (signToken sign_detached
                         (tokenObj uuid age aud nonce (Date_now / 1000)) secretKey));
                ("expires_at", JNum (Date_now / 1000 + ttl)) ]).
Proof.
  unfold accepted_request, issue_token. intros H.
  rewrite !andb_true_iff in H. destruct H as [[[Hage Haud] Hnonce] Hinc].
  rewrite Hage, Haud, Hnonce, Hinc. cbn [negb orb].
  destruct (lookup "age" req_body) as [age|]; [|discriminate Hage].
  destruct (lookup "aud" req_body) as [aud|]; [|discriminate Haud].
  destruct (lookup "nonce" req_body) as [nonce|]; [|discriminate Hnonce].
  exists age, aud, nonce. auto.
Qed.

Lemma issue_token_rejected Date_now uuid req_body :
  accepted_request req_body = false ->
  exists reason,
    issue_token sign_detached secretKey Date_now uuid req_body
    = Response 400 (JObj [("error", JStr reason)]).
Proof.
  unfold accepted_request, issue_token. intros H.
  destruct (JS.truthy (lookup "age" req_body)); cbn [negb orb andb] in *; [|eauto].
  destruct (JS.truthy (lookup "aud" req_body)); cbn [negb orb andb] in *; [|eauto].
  destruct (JS.truthy (lookup "nonce" req_body)); cbn [negb orb andb] in *; [|eauto].
  rewrite H. cbn [negb]. eauto.
Qed.

Lemma token_of_201 t e :
  token_of (Response 201 (JObj [("token", JStr t); ("expires_at", JNum e)])) = Some t.
Proof. reflexivity. Qed.

Lemma expires_at_of_201 t e :
  expires_at_of (Response 201 (JObj [("token", JStr t); ("expires_at", JNum e)]))
  = Some e.
Proof. reflexivity. Qed.

Lemma token_of_issued Date_now uuid req_body token :
  token_of (issue_token sign_detached secretKey Date_now uuid req_body) = Some token ->
  exists age aud nonce,
    lookup "age" req_body = Some age /\
    lookup "aud" req_body = Some aud /\
    lookup "nonce" req_body = Some nonce /\
    token = signToken sign_detached
              (tokenObj uuid age aud nonce (Date_now / 1000)) secretKey /\
    expires_at_of (issue_token sign_detached secretKey Date_now uuid req_body)
    = Some (Date_now / 1000 + ttl).
Proof.
  intros H. destruct (accepted_request req_body) eqn:E.
  - destruct (issue_token_accepted Date_now uuid req_body E)
      as [age [aud [nonce [Ha [Hu [Hn Hr]]]]]].
    rewrite Hr in *. rewrite token_of_201 in H. injection H as <-.
    exists age, aud, nonce. rewrite expires_at_of_201. auto.
  - destruct (issue_token_rejected Date_now uuid req_body E) as [reason Hr].
    rewrite Hr in H. discriminate H.
Qed.

Hypothesis keys_match :
  forall message,
    verify_detached publicKey message (sign_detached message secretKey) = true.

(** The verdict on an issued token: the audience is tested first, then the
    expiry, with [exp < now]. *)
Lemma validate_issued tid age aud nonce t now expected :
  validate_compact_token verify_detached publicKey now
    (signToken sign_detached (tokenObj tid age aud nonce t) secretKey) expected
  = Returns
      (if ne_str (JS.project issued_keys aud) expected
       then (false, Reason "audience mismatch")
       else if t + ttl <? now then (false, Reason "expired")
       else (true, Payload (wire_claims tid age aud nonce t))).
Proof.
  unfold validate_compact_token, validate_body, signToken.
  rewrite split_dot_two by apply encode_no_dot. cbn [unpack2 Py.bind].
  rewrite !decode_encode. cbn [Py.bind]. unfold verify. rewrite keys_match.
  cbn [Py.bind]. rewrite loads_issued. cbn [Py.bind].
  change (getitem (wire_claims tid age aud nonce t) "aud")
    with (Returns (A:=json) (JS.project issued_keys aud)).
  cbn [Py.bind].
  destruct (ne_str (JS.project issued_keys aud) expected); [reflexivity|].
  change (getitem (wire_claims tid age aud nonce t) "exp")
    with (Returns (JNum (t + ttl))).
  cbn [Py.bind lt_int].
  destruct (t + ttl <? now); reflexivity.
Qed.

End Issued.

(** ** The order of keys *)

Lemma continuation_byte k :
  (k < 64)%N -> JS.continuation (ascii_of_N (128 + k)) = Some k.
Proof.
  intros H. unfold JS.continuation. rewrite N_ascii_embedding by lia.
  replace (128 <=? 128 + k)%N with true by (symmetry; apply N.leb_le; lia).
  replace (128 + k <? 192)%N with true by (symmetry; apply N.ltb_lt; lia).
  cbn [andb]. f_equal. lia.
Qed.

(** The code units are those of the code points: [utf16] reads back the
    UTF-8 that the decoder of the validator writes for a code point. *)
Lemma utf16_utf8 cp r :
  (cp < 1114112)%N ->
  JS.utf16 (PyJson.utf8 cp ++ r) = (JS.code_units cp ++ JS.utf16 r)%list.
Proof.
  intros H. unfold PyJson.utf8.
  destruct (cp <? 128)%N eqn:E1; [apply N.ltb_lt in E1 | apply N.ltb_ge in E1].
  { cbn [String.append JS.utf16]. rewrite N_ascii_embedding by lia.
    replace (cp <? 192)%N with true by (symmetry; apply N.ltb_lt; lia).
    unfold JS.code_units.
    replace (cp <? 65536)%N with true by (symmetry; apply N.ltb_lt; lia).
    reflexivity. }
  destruct (cp <? 2048)%N eqn:E2; [apply N.ltb_lt in E2 | apply N.ltb_ge in E2].
  { cbn [String.append JS.utf16].
    rewrite (N_ascii_embedding (192 + cp / 64)) by divlia.
    replace (192 + cp / 64 <? 192)%N with false by (symmetry; apply N.ltb_ge; divlia).
    replace (192 + cp / 64 <? 224)%N with true by (symmetry; apply N.ltb_lt; divlia).
    rewrite continuation_byte by divlia.
    f_equal. f_equal. divlia. }
  destruct (cp <? 65536)%N eqn:E3; [apply N.ltb_lt in E3 | apply N.ltb_ge in E3].
  { cbn [String.append JS.utf16].
    rewrite (N_ascii_embedding (224 + cp / 4096)) by divlia.
    replace (224 + cp / 4096 <? 192)%N with false by (symmetry; apply N.ltb_ge; divlia).
    replace (224 + cp / 4096 <? 224)%N with false by (symmetry; apply N.ltb_ge; divlia).
    replace (224 + cp / 4096 <? 240)%N with true by (symmetry; apply N.ltb_lt; divlia).
    rewrite !continuation_byte by divlia.
    f_equal. f_equal. divlia. }
  cbn [String.append JS.utf16].
  rewrite (N_ascii_embedding (240 + cp / 262144)) by divlia.
  replace (240 + cp / 262144 <? 192)%N with false by (symmetry; apply N.ltb_ge; divlia).
  replace (240 + cp / 262144 <? 224)%N with false by (symmetry; apply N.ltb_ge; divlia).
  replace (240 + cp / 262144 <? 240)%N with false by (symmetry; apply N.ltb_ge; divlia).
  rewrite !continuation_byte by divlia.
  f_equal. f_equal. divlia.
Qed.

Lemma compare_units_refl u : JS.compare_units u u = Eq.
Proof.
  induction u as [|x u IH]; cbn [JS.compare_units]; [reflexivity|].
  now rewrite N.compare_refl.
Qed.

Lemma compare_units_eq u v : JS.compare_units u v = Eq -> u = v.
Proof.
  revert v. induction u as [|x u IH]; intros [|y v]; cbn [JS.compare_units];
    try discriminate; [reflexivity|].
  destruct (x ?= y)%N eqn:E; try discriminate.
  apply N.compare_eq_iff in E. intros H. f_equal; [exact E | exact (IH _ H)].
Qed.

Lemma compare_units_antisym u v :
  JS.compare_units v u = CompOpp (JS.compare_units u v).
Proof.
  revert v. induction u as [|x u IH]; intros [|y v]; cbn [JS.compare_units];
    try reflexivity.
  rewrite (N.compare_antisym x y). destruct (x ?= y)%N; cbn [CompOpp]; auto.
Qed.

Lemma compare_units_trans u v w :
  JS.compare_units u v = Lt -> JS.compare_units v w = Lt -> JS.compare_units u w = Lt.
Proof.
  revert v w. induction u as [|x u IH]; intros [|y v] [|z w]; cbn [JS.compare_units];
    try discriminate; try reflexivity.
  destruct (x ?= y)%N eqn:E1; try discriminate;
    destruct (y ?= z)%N eqn:E2; try discriminate; intros H1 H2.
  - apply N.compare_eq_iff in E1, E2. subst. rewrite N.compare_refl. eauto.
  - apply N.compare_eq_iff in E1. subst. now rewrite E2.
  - apply N.compare_eq_iff in E2. subst. now rewrite E1.
  - apply N.compare_lt_iff in E1, E2.
    now rewrite (proj2 (N.compare_lt_iff x z) (N.lt_trans _ _ _ E1 E2)).
Qed.

Lemma string_compare_refl a : String.compare a a = Eq.
Proof.
  pose proof (String.compare_antisym a a) as E.
  destruct (String.compare a a); [reflexivity | discriminate E | discriminate E].
Qed.

Lemma SortCompare_refl a : JS.SortCompare a a = Eq.
Proof.
  unfold JS.SortCompare. rewrite compare_units_refl. apply string_compare_refl.
Qed.

Lemma SortCompare_eq a b : JS.SortCompare a b = Eq -> a = b.
Proof.
  unfold JS.SortCompare. destruct (JS.compare_units (JS.utf16 a) (JS.utf16 b));
    try discriminate. apply String.compare_eq_iff.
Qed.

Lemma SortCompare_antisym a b : JS.SortCompare b a = CompOpp (JS.SortCompare a b).
Proof.
  unfold JS.SortCompare. rewrite (compare_units_antisym (JS.utf16 a) (JS.utf16 b)).
  destruct (JS.compare_units (JS.utf16 a) (JS.utf16 b)); cbn [CompOpp]; auto.
  apply String.compare_antisym.
Qed.

Lemma slt_trans a b c : slt a b -> slt b c -> slt a c.
Proof.
  unfold slt, JS.SortCompare.
  destruct (JS.compare_units (JS.utf16 a) (JS.utf16 b)) eqn:E1; try discriminate;
    destruct (JS.compare_units (JS.utf16 b) (JS.utf16 c)) eqn:E2; try discriminate;
    intros H1 H2.
  - apply compare_units_eq in E1, E2. rewrite E1, E2, compare_units_refl.
    apply String_as_OT.cmp_lt. apply String_as_OT.cmp_lt in H1, H2.
    exact (String_as_OT.lt_trans _ _ _ H1 H2).
  - apply compare_units_eq in E1. now rewrite E1, E2.
  - apply compare_units_eq in E2. now rewrite <- E2, E1.
  - now rewrite (compare_units_trans _ _ _ E1 E2).
Qed.

Lemma slt_irrefl a : ~ slt a a.
Proof. unfold slt. rewrite SortCompare_refl. discriminate. Qed.

(** Where the order of [sort] is not the order of the octets: a character
    beyond U+FFFF comes before every character of U+E000..U+FFFF. *)
Lemma surrogates_first cp1 cp2 r1 r2 :
  (65536 <= cp1 < 1114112)%N -> (57344 <= cp2 < 65536)%N ->
  slt (PyJson.utf8 cp1 ++ r1) (PyJson.utf8 cp2 ++ r2).
Proof.
  intros H1 H2. unfold slt, JS.SortCompare.
  rewrite !utf16_utf8 by lia. unfold JS.code_units.
  replace (cp1 <? 65536)%N with false by (symmetry; apply N.ltb_ge; lia).
  replace (cp2 <? 65536)%N with true by (symmetry; apply N.ltb_lt; lia).
  cbn [List.app JS.compare_units].
  now replace (55296 + (cp1 - 65536) / 1024 ?= cp2)%N with Lt
    by (symmetry; apply N.compare_lt_iff; divlia).
Qed.

Lemma leb_iff a b : JS.precedes a b = true <-> a = b \/ slt a b.
Proof.
  unfold JS.precedes, slt. destruct (JS.SortCompare a b) eqn:E.
  - apply SortCompare_eq in E. tauto.
  - tauto.
  - split; [discriminate|]. intros [-> | H]; [|discriminate].
    rewrite SortCompare_refl in E. discriminate E.
Qed.

Lemma leb_total a b : JS.precedes a b = true \/ JS.precedes b a = true.
Proof.
  unfold JS.precedes. rewrite (SortCompare_antisym a b).
  destruct (JS.SortCompare a b); cbn [CompOpp]; auto.
Qed.

Lemma leb_trans a b c :
  JS.precedes a b = true -> JS.precedes b c = true -> JS.precedes a c = true.
Proof.
  rewrite !leb_iff. intros [-> | H1] [-> | H2]; auto.
  right. exact (slt_trans _ _ _ H1 H2).
Qed.

Lemma insert_sorted_In x l y : In y (JS.insert_sorted x l) <-> y = x \/ In y l.
Proof.
  induction l as [|z l IH]; cbn [JS.insert_sorted].
  - cbn. intuition.
  - destruct (JS.precedes x z); cbn [In]; [intuition|]. rewrite IH. intuition.
Qed.

Lemma sort_In l y : In y (JS.sort l) <-> In y l.
Proof.
  induction l as [|x l IH]; cbn [JS.sort]; [tauto|].
  rewrite insert_sorted_In, IH. cbn. intuition.
Qed.

Lemma insert_sorted_sorted x l :
  StronglySorted (fun a b => JS.precedes a b = true) l ->
  StronglySorted (fun a b => JS.precedes a b = true) (JS.insert_sorted x l).
Proof.
  induction 1 as [|z l Hl IH Hz]; cbn [JS.insert_sorted].
  - repeat constructor.
  - destruct (JS.precedes x z) eqn:E.
    + constructor; [now constructor|]. constructor; [assumption|].
      rewrite Forall_forall in *. intros y Hy. exact (leb_trans _ _ _ E (Hz y Hy)).
    + constructor; [assumption|]. rewrite Forall_forall in *. intros y Hy.
      apply insert_sorted_In in Hy. destruct Hy as [-> | Hy]; [|auto].
      destruct (leb_total x z) as [H | H]; [congruence | assumption].
Qed.

Lemma sort_sorted l : StronglySorted (fun a b => JS.precedes a b = true) (JS.sort l).
Proof.
  induction l as [|x l IH]; cbn [JS.sort]; [constructor | now apply insert_sorted_sorted].
Qed.

Lemma property_list_from_sorted seen l :
  StronglySorted (fun a b => JS.precedes a b = true) l ->
  StronglySorted slt (JS.property_list_from seen l).
Proof.
  intros H. revert seen. induction H as [|k l Hl IH Hk]; intros seen;
    cbn [JS.property_list_from]; [constructor|].
  destruct (existsb (String.eqb k) seen); [apply IH|].
  constructor; [apply IH|]. rewrite Forall_forall in *. intros y Hy.
  apply property_list_from_In in Hy. destruct Hy as [Hy Hn]. cbn [In] in Hn.
  specialize (Hk y Hy). apply leb_iff in Hk. destruct Hk as [-> | Hk]; tauto.
Qed.

Lemma strictly_sorted_unique l1 l2 :
  StronglySorted slt l1 -> StronglySorted slt l2 ->
  (forall x, In x l1 <-> In x l2) -> l1 = l2.
Proof.
  intros H1. revert l2. induction H1 as [|a l1 Hl1 IH Ha]; intros l2 H2 Hsame.
  - destruct l2 as [|b l2]; [reflexivity|]. exfalso. apply (Hsame b). now left.
  - destruct H2 as [|b l2 Hl2 Hb].
    + exfalso. apply (Hsame a). now left.
    + rewrite Forall_forall in Ha, Hb.
      assert (Hab : a = b).
      { destruct (proj1 (Hsame a) (or_introl eq_refl)) as [E | Hin]; [now symmetry|].
        destruct (proj2 (Hsame b) (or_introl eq_refl)) as [E | Hin']; [assumption|].
        exfalso. apply (slt_irrefl a). exact (slt_trans _ _ _ (Ha b Hin') (Hb a Hin)). }
      subst b. f_equal. apply IH; [assumption|]. intros x. split; intros Hx.
      * destruct (proj1 (Hsame x) (or_intror Hx)) as [<- | H]; [|assumption].
        exfalso. exact (slt_irrefl _ (Ha _ Hx)).
      * destruct (proj2 (Hsame x) (or_intror Hx)) as [<- | H]; [|assumption].
        exfalso. exact (slt_irrefl _ (Hb _ Hx)).
Qed.

(** Sorting and removing duplicates depends on the set of keys only. *)
Lemma property_list_sort_ext l1 l2 :
  (forall k, In k l1 <-> In k l2) ->
  JS.property_list (JS.sort l1) = JS.property_list (JS.sort l2).
Proof.
  intros H. apply strictly_sorted_unique.
  - apply property_list_from_sorted, sort_sorted.
  - apply property_list_from_sorted, sort_sorted.
  - intros x. unfold JS.property_list. rewrite !property_list_from_In, !sort_In, H. tauto.
Qed.

Lemma lookup_None_keys {A : Type} k (m : list (string * A)) :
  lookup k m = None <-> ~ In k (map fst m).
Proof.
  induction m as [|[k' v] m IH]; cbn; [tauto|].
  destruct (String.eqb_spec k k') as [-> | Hne].
  - split; [discriminate | tauto].
  - rewrite IH. split; [intros H [E | Hin]; [congruence | tauto] | tauto].
Qed.

Lemma select_ext {A : Type} keys (a b : list (string * A)) :
  (forall P, lookup P a = lookup P b) -> select keys a = select keys b.
Proof.
  intros H. induction keys as [|P keys IH]; [reflexivity|].
  cbn [select]. rewrite H, IH. reflexivity.
Qed.

Lemma map_serialize_eqv K l1 l2 :
  Forall (fun v1 => forall v2, json_eqv v1 v2 -> JS.serialize K v1 = JS.serialize K v2) l1 ->
  Forall2 json_eqv l1 l2 ->
  map (JS.serialize K) l1 = map (JS.serialize K) l2.
Proof.
  intros HF H2. induction H2 as [|x y l l' Hxy Hl IHl]; [reflexivity|].
  inversion HF; subst. cbn [map]. f_equal; auto.
Qed.

(** Under a property list, logically identical documents have the same
    text. *)
Lemma serialize_eqv K v1 : forall v2, json_eqv v1 v2 -> JS.serialize K v1 = JS.serialize K v2.
Proof.
  induction v1 as [| b | n | s | items IH | members IH] using json_ind;
    intros v2 H; inversion H; subst; try reflexivity.
  - cbn [JS.serialize].
    match goal with F : Forall2 json_eqv _ _ |- _ =>
      now rewrite (map_serialize_eqv K _ _ IH F) end.
  - cbn [JS.serialize].
    match goal with |- context [select K (map ?f ?m)] =>
      enough (E : select K (map f members) = select K (map f m)) by now rewrite E end.
    apply select_ext. intros P.
    rewrite !lookup_map.
    match goal with
    | Hn : forall k, lookup k members = None <-> lookup k ?m = None,
      Hs : forall k v1 v2, lookup k members = Some v1 -> _ |- _ =>
        specialize (Hn P); specialize (Hs P);
        destruct (lookup P members) as [w1|] eqn:E1;
        destruct (lookup P m) as [w2|] eqn:E2
    end; cbn [option_map].
    + f_equal. rewrite Forall_forall in IH.
      apply (IH (P, w1) (lookup_In _ _ _ E1)). auto.
    + exfalso. assert (Some w1 = None) by tauto. discriminate.
    + exfalso. assert (Some w2 = None) by tauto. discriminate.
    + reflexivity.
Qed.


(** ** Verdicts of the validator *)

(** Every exception of the model is an instance of [Exception]. *)
Lemma isinstance_Exception e : isinstance e Exception = true.
Proof. destruct e; reflexivity. Qed.

Lemma caught {A : Type} (e : exn) (handler : exn -> outcome A) :
  try_except_Exception (Raises e) handler = handler e.
Proof. unfold try_except_Exception. now rewrite isinstance_Exception. Qed.

Lemma keys_match_toy message :
  Toy.verify_detached "k" message (Toy.sign_detached message "k") = true.
Proof. apply String.eqb_refl. Qed.

Lemma scenario_issued :
  token_of (issue_token Toy.sign_detached "k" 1000999 "6f1c" scenario_body)
  = Some scenario_token.
Proof. reflexivity. Qed.

Section Verdicts.

Variable verify_detached : string -> string -> string -> bool.
Variable publicKey : string.

(** The validator accepts exactly when every step of the [try] block
    goes through. *)
Lemma validate_accepts now token expected payload :
  validate_compact_token verify_detached publicKey now token expected
  = Returns (true, Payload payload)
  <-> exists payload_b64 sig_b64 payload_json sig aud exp,
        split_dot token = [payload_b64; sig_b64] /\
        B64.decode payload_b64 = Returns payload_json /\
        B64.decode sig_b64 = Returns sig /\
        verify_detached publicKey payload_json sig = true /\
        PyJson.loads payload_json = Returns payload /\
        getitem payload "aud" = Returns aud /\
        ne_str aud expected = false /\
        getitem payload "exp" = Returns exp /\
        lt_int exp now = Returns false.
Proof.
  unfold validate_compact_token, validate_body. split.
  - destruct (split_dot token) as [|a [|b [|c l]]] eqn:Es; cbn [unpack2 Py.bind];
      rewrite ?caught; try (intros H; discriminate H).
    destruct (B64.decode a) as [pj|e] eqn:Ea; cbn [Py.bind]; rewrite ?caught;
      try (intros H; discriminate H).
    destruct (B64.decode b) as [sg|e] eqn:Eb; cbn [Py.bind]; rewrite ?caught;
      try (intros H; discriminate H).
    unfold verify.
    destruct (verify_detached publicKey pj sg) eqn:Ev; cbn [Py.bind];
      rewrite ?caught; try (intros H; discriminate H).
    destruct (PyJson.loads pj) as [p|e] eqn:El'; cbn [Py.bind]; rewrite ?caught;
      try (intros H; discriminate H).
    destruct (getitem p "aud") as [aud|e] eqn:Eu; cbn [Py.bind]; rewrite ?caught;
      try (intros H; discriminate H).
    destruct (ne_str aud expected) eqn:En; [intros H; discriminate H|].
    destruct (getitem p "exp") as [exp|e] eqn:Ee; cbn [Py.bind]; rewrite ?caught;
      try (intros H; discriminate H).
    destruct (lt_int exp now) as [[|]|e] eqn:El; cbn [Py.bind]; rewrite ?caught;
      try (intros H; discriminate H).
    cbn [try_except_Exception]. intros [= <-].
    exists a, b, pj, sg, aud, exp. repeat split; auto.
  - intros [a [b [pj [sg [aud [exp [Hs [Ha [Hb [Hv [Hl [Hau [Hn [He Hlt]]]]]]]]]]]]]].
    rewrite Hs. cbn [unpack2 Py.bind]. rewrite Ha, Hb. cbn [Py.bind].
    unfold verify. rewrite Hv. cbn [Py.bind]. rewrite Hl. cbn [Py.bind].
    rewrite Hau. cbn [Py.bind]. rewrite Hn, He. cbn [Py.bind]. rewrite Hlt.
    reflexivity.
Qed.

(** C1, as amended.  The validator keeps no record of the tokens it has
    accepted: a token accepted once is accepted again, with the same
    payload, whenever it is presented with the same audience at a time
    before the [exp] of its payload. *)
Theorem replay_accepted_again now token expected payload e now2 :
  validate_compact_token verify_detached publicKey now token expected
  = Returns (true, Payload payload) ->
  getitem payload "exp" = Returns (JNum e) ->
  now2 < e ->
  validate_compact_token verify_detached publicKey now2 token expected
  = Returns (true, Payload payload).
Proof.
  intros H He Hlt'. apply validate_accepts in H.
  destruct H as [a [b [pj [sg [aud [exp [Hs [Ha [Hb [Hv [Hl [Hau [Hn [He' Hlt]]]]]]]]]]]]]].
  apply validate_accepts. exists a, b, pj, sg, aud, (JNum e).
  repeat split; auto. cbn [lt_int]. f_equal. apply Z.ltb_ge. lia.
Qed.

(** C10.  The validator returns a pair for every token, audience and
    clock reading: whatever the [try] block raises is an [Exception] and
    is caught.  On a malformed token the first component is [false]. *)
Theorem validate_total now token expected :
  exists ok info,
    validate_compact_token verify_detached publicKey now token expected
    = Returns (ok, info)
    /\ (malformed token -> ok = false).
Proof.
  unfold validate_compact_token.
  destruct (validate_body verify_detached publicKey now token expected)
    as [[ok info]|e] eqn:E.
  - exists ok, info. split; [reflexivity|]. intros Hm.
    unfold validate_body in E. destruct Hm as
      [Hlen | a b e Hs Ha | a b e Hs Hb | a b pj e Hs Ha Hl | a b pj p key e Hs Ha Hl Hk Hg].
    + destruct (split_dot token) as [|x [|y [|z l]]]; cbn in Hlen;
        try discriminate E. congruence.
    + rewrite Hs in E. cbn [unpack2 Py.bind] in E. rewrite Ha in E. discriminate E.
    + rewrite Hs in E. cbn [unpack2 Py.bind] in E.
      destruct (B64.decode a); [|discriminate E]. cbn [Py.bind] in E.
      rewrite Hb in E. discriminate E.
    + rewrite Hs in E. cbn [unpack2 Py.bind] in E. rewrite Ha in E. cbn [Py.bind] in E.
      destruct (B64.decode b) as [sg|]; [|discriminate E]. cbn [Py.bind] in E.
      destruct (verify verify_detached publicKey pj sg); [|discriminate E].
      cbn [Py.bind] in E. rewrite Hl in E. discriminate E.
    + rewrite Hs in E. cbn [unpack2 Py.bind] in E. rewrite Ha in E. cbn [Py.bind] in E.
      destruct (B64.decode b) as [sg|]; [|discriminate E]. cbn [Py.bind] in E.
      destruct (verify verify_detached publicKey pj sg); [|discriminate E].
      cbn [Py.bind] in E. rewrite Hl in E. cbn [Py.bind] in E.
      cbn [In] in Hk. destruct Hk as [<- | [<- | []]].
      * rewrite Hg in E. discriminate E.
      * destruct (getitem p "aud") as [au|]; [|discriminate E]. cbn [Py.bind] in E.
        destruct (ne_str au expected); [now injection E as <- _|].
        rewrite Hg in E. discriminate E.
  - exists false, (StrOf e). rewrite caught. split; reflexivity.
Qed.

End Verdicts.

Lemma validate_total_witness :
  exists ok info,
    validate_compact_token Toy.verify_detached "k" 2000 "e30" "app.example"
    = Returns (ok, info)
    /\ ok = false.
Proof.
  destruct (validate_total Toy.verify_detached "k" 2000 "e30" "app.example")
    as [ok [info [H Hm]]].
  exists ok, info. split; [exact H|]. apply Hm. apply bad_separators.
  cbn. discriminate.
Defined.

Lemma replay_accepted_again_witness :
  validate_compact_token Toy.verify_detached "k" 3000 scenario_token "app.example"
  = Returns (true, Payload scenario_claims).
Proof.
  apply (replay_accepted_again Toy.verify_detached "k" 2000 scenario_token
           "app.example" _ 4600 3000).
  - vm_compute. reflexivity.
  - reflexivity.
  - lia.
Defined.

(** ** The shape of a verdict *)

Section Shapes.

Variable verify_detached : string -> string -> string -> bool.
Variable publicKey : string.

(** The three ways in which the [try] block returns. *)
Lemma validate_body_returns now token expected ok info :
  validate_body verify_detached publicKey now token expected = Returns (ok, info) ->
  (ok = true /\ exists payload, info = Payload payload)
  \/ (ok = false /\ (info = Reason "audience mismatch" \/ info = Reason "expired")).
Proof.
  unfold validate_body.
  destruct (split_dot token) as [|a [|b [|c l]]]; cbn [unpack2 Py.bind];
    try discriminate.
  destruct (B64.decode a) as [pj|]; cbn [Py.bind]; [|discriminate].
  destruct (B64.decode b) as [sg|]; cbn [Py.bind]; [|discriminate].
  destruct (verify verify_detached publicKey pj sg); cbn [Py.bind]; [|discriminate].
  destruct (PyJson.loads pj) as [p|]; cbn [Py.bind]; [|discriminate].
  destruct (getitem p "aud") as [aud|]; cbn [Py.bind]; [|discriminate].
  destruct (ne_str aud expected); [intros [= <- <-]; auto|].
  destruct (getitem p "exp") as [exp|]; cbn [Py.bind]; [|discriminate].
  destruct (lt_int exp now) as [[|]|]; cbn [Py.bind]; [| |discriminate].
  - intros [= <- <-]. auto.
  - intros [= <- <-]. left. eauto.
Qed.

(** The validator returns, in one of three shapes. *)
Lemma validate_returns now token expected :
  exists ok info,
    validate_compact_token verify_detached publicKey now token expected
    = Returns (ok, info)
    /\ ((ok = true /\ exists payload, info = Payload payload)
        \/ (ok = false
            /\ (info = Reason "audience mismatch" \/ info = Reason "expired"
                \/ exists e, info = StrOf e))).
Proof.
  unfold validate_compact_token.
  destruct (validate_body verify_detached publicKey now token expected)
    as [[ok info]|e] eqn:E.
  - exists ok, info. split; [reflexivity|].
    destruct (validate_body_returns _ _ _ _ _ E) as [H | [H H']]; [now left|].
    right. split; [exact H|]. destruct H'; auto.
  - exists false, (StrOf e). rewrite caught. split; [reflexivity|].
    right. split; [reflexivity|]. eauto.
Qed.

End Shapes.

(** ** Claims about issuance and verification *)

Lemma project_not_str K v s : v <> JStr s -> JS.project K v <> JStr s.
Proof. destruct v; cbn [JS.project]; congruence. Qed.

Section Claims.

Variable sign_detached : string -> string -> string.
Variable verify_detached : string -> string -> string -> bool.
Variables secretKey publicKey : string.

(** C6.  Every token the handler emits at clock reading [Date_now]
    carries [iat = now] and [exp = now + ttl] for
    [now = floor(Date_now / 1000)], so that [exp - iat] is exactly the
    constant [ttl] of one hour, and the response announces the same expiry;
    this holds whatever the request contains. *)
Theorem issue_token_ttl Date_now uuid req_body token :
  token_of (issue_token sign_detached secretKey Date_now uuid req_body) = Some token ->
  exists claims iat exp,
    decode_payload token = Returns claims /\
    getitem claims "iat" = Returns (JNum iat) /\
    getitem claims "exp" = Returns (JNum exp) /\
    iat = Date_now / 1000 /\
    exp = iat + ttl /\
    exp - iat = 3600 /\
    expires_at_of (issue_token sign_detached secretKey Date_now uuid req_body)
    = Some exp.
Proof.
  intros H. apply token_of_issued in H.
  destruct H as [age [aud [nonce [_ [_ [_ [-> He]]]]]]].
  exists (wire_claims uuid age aud nonce (Date_now / 1000)),
         (Date_now / 1000), (Date_now / 1000 + ttl).
  rewrite decode_payload_signed, loads_issued.
  repeat split; try reflexivity; [unfold ttl; lia | exact He].
Qed.

(** C9.  Every token the handler emits names the attestor
    [attestor.example.org], whatever the request; but the [flags] object
    of the payload that is signed and sent is empty, not the
    [{"purpose": "safety"}] of [tokenObj]: the array replacer of
    [signToken] filters the members of nested objects as well. *)
Theorem issued_flags_empty Date_now uuid req_body token :
  token_of (issue_token sign_detached secretKey Date_now uuid req_body) = Some token ->
  exists claims,
    decode_payload token = Returns claims /\
    getitem claims "att" = Returns (JStr "attestor.example.org") /\
    getitem claims "flags" = Returns (JObj []) /\
    JObj [] <> JObj [("purpose", JStr "safety")].
Proof.
  intros H. apply token_of_issued in H.
  destruct H as [age [aud [nonce [_ [_ [_ [-> He]]]]]]].
  exists (wire_claims uuid age aud nonce (Date_now / 1000)).
  rewrite decode_payload_signed, loads_issued.
  repeat split; try reflexivity. discriminate.
Qed.

(** C7, as amended.  The handler answers [400] exactly when [age], [aud]
    or [nonce] is missing or falsy (for a string: empty) or [age] is not
    one of the four buckets, and [201] otherwise; it enforces no length
    bound. *)
Theorem issue_token_status Date_now uuid req_body :
  status_of (issue_token sign_detached secretKey Date_now uuid req_body)
  = if accepted_request req_body then 201 else 400.
Proof.
  destruct (accepted_request req_body) eqn:E.
  - destruct (issue_token_accepted sign_detached secretKey Date_now uuid req_body E)
      as [age [aud [nonce [_ [_ [_ ->]]]]]]. reflexivity.
  - destruct (issue_token_rejected sign_detached secretKey Date_now uuid req_body E)
      as [reason ->]. reflexivity.
Qed.

Hypothesis keys_match :
  forall message,
    verify_detached publicKey message (sign_detached message secretKey) = true.

(** C8.  A token issued for an audience is rejected with
    [audience mismatch] when it is presented with any other expected
    audience, at any time. *)
Theorem audience_binding Date_now uuid req_body token expected now :
  token_of (issue_token sign_detached secretKey Date_now uuid req_body) = Some token ->
  lookup "aud" req_body <> Some (JStr expected) ->
  validate_compact_token verify_detached publicKey now token expected
  = Returns (false, Reason "audience mismatch").
Proof.
  intros H Hne. apply token_of_issued in H.
  destruct H as [age [aud [nonce [_ [Hu [_ [-> _]]]]]]].
  rewrite (validate_issued _ _ _ _ keys_match).
  assert (Hp : JS.project issued_keys aud <> JStr expected)
    by (apply project_not_str; congruence).
  unfold ne_str. destruct (JS.project issued_keys aud) as [| | |s| |]; try reflexivity.
  destruct (String.eqb_spec s expected) as [-> | _]; [congruence | reflexivity].
Qed.

(** C2: what the validator does around the expiry time.  A token issued
    for the audience [aud] is accepted for that audience at
    [exp - 1] and still at [exp]; it is first refused, with [expired], at
    [exp + 1]: the test is [exp < now]. *)
Theorem accepted_at_expiry Date_now uuid req_body token aud exp :
  token_of (issue_token sign_detached secretKey Date_now uuid req_body) = Some token ->
  lookup "aud" req_body = Some (JStr aud) ->
  expires_at_of (issue_token sign_detached secretKey Date_now uuid req_body) = Some exp ->
  exists claims,
    validate_compact_token verify_detached publicKey (exp - 1) token aud
    = Returns (true, Payload claims) /\
    validate_compact_token verify_detached publicKey exp token aud
    = Returns (true, Payload claims) /\
    validate_compact_token verify_detached publicKey (exp + 1) token aud
    = Returns (false, Reason "expired").
Proof.
  intros H Hu He. apply token_of_issued in H.
  destruct H as [age [aud' [nonce [_ [Hu' [_ [-> He']]]]]]].
  rewrite Hu in Hu'. injection Hu' as <-. rewrite He in He'. injection He' as ->.
  exists (wire_claims uuid age (JStr aud) nonce (Date_now / 1000)).
  rewrite !(validate_issued _ _ _ _ keys_match). cbn [JS.project ne_str].
  rewrite String.eqb_refl. cbn [negb].
  rewrite (proj2 (Z.ltb_ge _ _)) by lia.
  rewrite Z.ltb_irrefl.
  rewrite (proj2 (Z.ltb_lt _ _)) by lia.
  auto.
Qed.

(** C5, as amended.  The validator holds one public key and consults no
    revocation status: a token signed with the key of a trust entry that
    is marked revoked is accepted like any other, for its audience and
    before [exp]; and no verdict of the validator under that key, on any
    token, carries the reason [Revoked]. *)
Theorem revocation_not_consulted (entry : TrustEntry)
    Date_now uuid req_body token aud exp now :
  revoked entry = true ->
  public_key entry = publicKey ->
  token_of (issue_token sign_detached secretKey Date_now uuid req_body) = Some token ->
  lookup "aud" req_body = Some (JStr aud) ->
  expires_at_of (issue_token sign_detached secretKey Date_now uuid req_body) = Some exp ->
  now < exp ->
  (exists claims,
      validate_compact_token verify_detached (public_key entry) now token aud
      = Returns (true, Payload claims))
  /\ (forall now' token' aud' ok info,
        validate_compact_token verify_detached (public_key entry) now' token' aud'
        = Returns (ok, info) ->
        info <> Reason "Revoked").
Proof.
  intros _ -> H Hu He Hlt. split.
  - apply token_of_issued in H.
    destruct H as [age [aud' [nonce [_ [Hu' [_ [-> He']]]]]]].
    rewrite Hu in Hu'. injection Hu' as <-. rewrite He in He'. injection He' as ->.
    exists (wire_claims uuid age (JStr aud) nonce (Date_now / 1000)).
    rewrite (validate_issued _ _ _ _ keys_match). cbn [JS.project ne_str].
    rewrite String.eqb_refl. cbn [negb].
    now rewrite (proj2 (Z.ltb_ge _ _)) by lia.
  - intros now' token' aud' ok info Hv.
    destruct (validate_returns verify_detached publicKey now' token' aud')
      as [ok' [info' [Hv' Hs]]].
    rewrite Hv in Hv'. injection Hv' as <- <-.
    destruct Hs as [[_ [p ->]] | [_ [-> | [-> | [e ->]]]]]; discriminate.
Qed.

End Claims.

(** ** The scenario of the spec *)

Lemma filler_length n : String.length (filler n) = n.
Proof. induction n; cbn; congruence. Qed.

Lemma scenario_expires_at :
  expires_at_of (issue_token Toy.sign_detached "k" 1000999 "6f1c" scenario_body)
  = Some 4600.
Proof. reflexivity. Qed.

Lemma scenario_accepted :
  validate_compact_token Toy.verify_detached "k" 2000 scenario_token "app.example"
  = Returns (true, Payload scenario_claims).
Proof. vm_compute. reflexivity. Qed.

Lemma scenario_accepted_later :
  validate_compact_token Toy.verify_detached "k" 2001 scenario_token "app.example"
  = Returns (true, Payload scenario_claims).
Proof. vm_compute. reflexivity. Qed.

(** C1, as stated, fails on the scenario of the spec: the token issued at
    [t = 1000] and accepted at [t = 2000] is accepted again when it is
    presented a second time, at [t = 2001] or at the same reading of the
    clock. *)
Lemma replay_counterexample :
  validate_compact_token Toy.verify_detached "k" 2000 scenario_token "app.example"
  = Returns (true, Payload scenario_claims)
  /\ validate_compact_token Toy.verify_detached "k" 2001 scenario_token "app.example"
     = Returns (true, Payload scenario_claims)
  /\ ~ rejects_replay Toy.verify_detached "k".
Proof.
  split; [exact scenario_accepted|]. split; [exact scenario_accepted_later|].
  intros H.
  destruct (H 2000 2001 scenario_token "app.example" _ ltac:(lia) scenario_accepted)
    as [info2 H2].
  rewrite scenario_accepted_later in H2. discriminate H2.
Qed.

(** C5, as stated, fails: the token of the scenario, signed with the key of
    a trust entry that is marked revoked, is accepted by the validator
    that holds that key. *)
Lemma revoked_counterexample :
  revoked revoked_entry = true
  /\ validate_compact_token Toy.verify_detached (public_key revoked_entry) 2000
       scenario_token "app.example"
     = Returns (true, Payload scenario_claims)
  /\ ~ rejects_revoked Toy.sign_detached Toy.verify_detached "k".
Proof.
  split; [reflexivity|]. split; [exact scenario_accepted|].
  intros H.
  destruct (H revoked_entry 1000999 "6f1c" scenario_body scenario_token "app.example"
              2000 eq_refl keys_match_toy scenario_issued) as [info H2].
  change (public_key revoked_entry) with "k" in H2.
  rewrite scenario_accepted in H2. discriminate H2.
Qed.

Lemma long_request_accepted n Date_now uuid :
  status_of (issue_token Toy.sign_detached "k" Date_now uuid (long_request (S n))) = 201.
Proof.
  destruct (issue_token_accepted Toy.sign_detached "k" Date_now uuid
              (long_request (S n)) eq_refl) as [age [aud [nonce [_ [_ [_ Hr]]]]]].
  now rewrite Hr.
Qed.

(** C7, as stated, fails: a request whose audience has 300 characters is
    answered [201], and so is, whatever the bounds, a request whose
    audience is longer than the bound. *)
Lemma bounds_counterexample :
  status_of (issue_token Toy.sign_detached "k" 1000999 "6f1c" (long_request 300)) = 201
  /\ ~ rejects_beyond_bounds Toy.sign_detached "k".
Proof.
  split; [apply long_request_accepted|].
  intros [aud_bound [nonce_bound H]].
  assert (Hp : preconditions aud_bound nonce_bound (long_request (S aud_bound)) = false).
  { unfold preconditions.
    change (lookup "aud" (long_request (S aud_bound)))
      with (Some (JStr (filler (S aud_bound)))).
    unfold within_bound at 1. rewrite filler_length.
    rewrite (proj2 (Nat.leb_gt _ _)) by lia.
    now rewrite andb_false_r. }
  apply (H 0 "6f1c") in Hp. rewrite long_request_accepted in Hp. discriminate Hp.
Qed.

Lemma issue_token_ttl_witness :
  exists claims,
    decode_payload scenario_token = Returns claims /\
    getitem claims "iat" = Returns (JNum 1000) /\
    getitem claims "exp" = Returns (JNum 4600).
Proof.
  destruct (issue_token_ttl Toy.sign_detached "k" 1000999 "6f1c" scenario_body
              scenario_token scenario_issued)
    as [claims [iat [exp [Hd [Hi [He [-> [-> _]]]]]]]].
  exists claims. auto.
Defined.

Lemma issued_flags_empty_witness :
  exists claims,
    decode_payload scenario_token = Returns claims /\
    getitem claims "flags" = Returns (JObj []).
Proof.
  destruct (issued_flags_empty Toy.sign_detached "k" 1000999 "6f1c" scenario_body
              scenario_token scenario_issued) as [claims [Hd [_ [Hf _]]]].
  exists claims. auto.
Defined.

Lemma audience_binding_witness :
  validate_compact_token Toy.verify_detached "k" 2000 scenario_token "other.app"
  = Returns (false, Reason "audience mismatch").
Proof.
  apply (audience_binding Toy.sign_detached Toy.verify_detached "k" "k" keys_match_toy
           1000999 "6f1c" scenario_body).
  - reflexivity.
  - discriminate.
Defined.

Lemma accepted_at_expiry_witness :
  exists claims,
    validate_compact_token Toy.verify_detached "k" 4599 scenario_token "app.example"
    = Returns (true, Payload claims) /\
    validate_compact_token Toy.verify_detached "k" 4600 scenario_token "app.example"
    = Returns (true, Payload claims) /\
    validate_compact_token Toy.verify_detached "k" 4601 scenario_token "app.example"
    = Returns (false, Reason "expired").
Proof.
  apply (accepted_at_expiry Toy.sign_detached Toy.verify_detached "k" "k" keys_match_toy
           1000999 "6f1c" scenario_body scenario_token "app.example" 4600);
    reflexivity.
Defined.

Lemma revocation_not_consulted_witness :
  (exists claims,
      validate_compact_token Toy.verify_detached (public_key revoked_entry) 2000
        scenario_token "app.example"
      = Returns (true, Payload claims))
  /\ (forall now' token' aud' ok info,
        validate_compact_token Toy.verify_detached (public_key revoked_entry)
          now' token' aud'
        = Returns (ok, info) ->
        info <> Reason "Revoked").
Proof.
  apply (revocation_not_consulted Toy.sign_detached Toy.verify_detached "k" "k"
           keys_match_toy revoked_entry 1000999 "6f1c" scenario_body scenario_token
           "app.example" 4600 2000); first [reflexivity | lia].
Defined.

(** ** Canonical encoding *)

(** C4.  Two claim sets that are logically identical, differing only in
    the order in which members were inserted at the top level or inside
    nested objects such as [flags], have the same canonical text, hence
    the same token under the same key. *)
Theorem canonical_json_order_invariant p1 p2 :
  json_eqv (JObj p1) (JObj p2) ->
  canonical_json p1 = canonical_json p2
  /\ forall sign privateKey, signToken sign p1 privateKey = signToken sign p2 privateKey.
Proof.
  intros H.
  assert (E : canonical_json p1 = canonical_json p2).
  { unfold canonical_json, JS.JSON_stringify.
    assert (EK : JS.property_list (JS.sort (JS.Object_keys p1))
                 = JS.property_list (JS.sort (JS.Object_keys p2))).
    { apply property_list_sort_ext. intros k. unfold JS.Object_keys.
      inversion H as [| | | | |m1 m2 Hn Hs]; subst. specialize (Hn k).
      rewrite !lookup_None_keys in Hn. 
      destruct (in_dec String.string_dec k (map fst p1));
        destruct (in_dec String.string_dec k (map fst p2)); tauto. }
    rewrite EK. now apply serialize_eqv. }
  split; [exact E|]. intros sign privateKey. unfold signToken. now rewrite E.
Qed.

(** C3: what decoding the canonical encoding returns.  For the claim set
    the handler builds, [json.loads] of the text [signToken] signs is the
    claim set with an empty [flags] object: the member
    [purpose] of the nested object is lost, and the result is not the
    claim set that was encoded, in any order of its members. *)
Theorem round_trip_loses_flags tid age aud nonce now :
  PyJson.loads (canonical_json (tokenObj tid age aud nonce now))
  = Returns (wire_claims tid age aud nonce now)
  /\ lookup "flags" (tokenObj tid age aud nonce now)
     = Some (JObj [("purpose", JStr "safety")])
  /\ getitem (wire_claims tid age aud nonce now) "flags" = Returns (JObj [])
  /\ ~ json_eqv (JObj (tokenObj tid age aud nonce now))
                (wire_claims tid age aud nonce now).
Proof.
  split; [apply loads_issued|]. repeat split.
  intros H. inversion H as [| | | | |m1 m2 Hn Hs]; subst.
  specialize (Hs "flags" _ _ eq_refl eq_refl).
  inversion Hs as [| | | | |m1 m2 Hn' Hs']; subst.
  destruct (Hn' "purpose") as [_ Hp]. discriminate (Hp eq_refl).
Qed.

Lemma claims_reordered_eqv : json_eqv (JObj claims_in_order) (JObj claims_reordered).
Proof.
  assert (Hflags : json_eqv (JObj [("purpose", JStr "safety"); ("aud", JStr "x")])
                            (JObj [("aud", JStr "x"); ("purpose", JStr "safety")])).
  { constructor.
    - intros k. cbn [lookup].
      destruct (String.eqb_spec k "purpose") as [-> | _]; [cbn; split; discriminate|].
      destruct (String.eqb_spec k "aud") as [-> | _]; [cbn; split; discriminate|].
      tauto.
    - intros k v1 v2. cbn [lookup].
      destruct (String.eqb_spec k "purpose") as [-> | _];
        [cbn; intros [= <-] [= <-]; constructor|].
      destruct (String.eqb_spec k "aud") as [-> | _];
        [cbn; intros [= <-] [= <-]; constructor | discriminate]. }
  constructor.
  - intros k. unfold claims_in_order, claims_reordered. cbn [lookup].
    destruct (String.eqb_spec k "aud") as [-> | _]; [cbn; split; discriminate|].
    destruct (String.eqb_spec k "flags") as [-> | _]; [cbn; split; discriminate|].
    destruct (String.eqb_spec k "exp") as [-> | _]; [cbn; split; discriminate|].
    tauto.
  - intros k v1 v2. unfold claims_in_order, claims_reordered. cbn [lookup].
    destruct (String.eqb_spec k "aud") as [-> | _];
      [cbn; intros [= <-] [= <-]; constructor|].
    destruct (String.eqb_spec k "flags") as [-> | _];
      [cbn; intros [= <-] [= <-]; exact Hflags|].
    destruct (String.eqb_spec k "exp") as [-> | _];
      [cbn; intros [= <-] [= <-]; constructor | discriminate].
Qed.

Lemma canonical_json_order_invariant_witness :
  canonical_json claims_in_order = canonical_json claims_reordered.
Proof.
  exact (proj1 (canonical_json_order_invariant claims_in_order claims_reordered
                  claims_reordered_eqv)).
Defined.

(** * Further properties of the two programs *)

(** ** The compact form *)

Lemma split_dot_length s : List.length (split_dot s) = S (count_dots s).
Proof.
  induction s as [|c r IH]; [reflexivity|].
  cbn [split_dot count_dots]. destruct (Ascii.eqb c ".").
  - cbn [List.length]. now rewrite IH.
  - destruct (split_dot r) as [|h t]; [discriminate IH | exact IH].
Qed.

Lemma lookup_select {A : Type} keys (m : list (string * A)) k :
  lookup k (select keys m) = if existsb (String.eqb k) keys then lookup k m else None.
Proof.
  induction keys as [|P keys IH]; [reflexivity|].
  cbn [select existsb]. destruct (String.eqb_spec k P) as [-> | Hne].
  - cbn [orb]. destruct (lookup P m) as [x|] eqn:E.
    + cbn [lookup]. now rewrite String.eqb_refl.
    + rewrite IH. now destruct (existsb (String.eqb P) keys).
  - cbn [orb]. destruct (lookup P m) as [x|]; [|exact IH].
    cbn [lookup]. destruct (String.eqb_spec k P); [contradiction | exact IH].
Qed.

Lemma lookup_Some_key {A : Type} k (m : list (string * A)) x :
  lookup k m = Some x -> In k (map fst m).
Proof.
  intros H. destruct (in_dec String.string_dec k (map fst m)) as [Hin | Hn];
    [assumption|]. apply lookup_None_keys in Hn. congruence.
Qed.

Lemma canonical_keys_In obj k :
  In k (JS.property_list (JS.sort (JS.Object_keys obj))) <-> In k (map fst obj).
Proof.
  unfold JS.property_list, JS.Object_keys.
  rewrite property_list_from_In, sort_In. cbn. tauto.
Qed.

Lemma canonical_keys_sorted obj :
  StronglySorted slt (JS.property_list (JS.sort (JS.Object_keys obj))).
Proof. apply property_list_from_sorted, sort_sorted. Qed.

Lemma select_keys_all {A : Type} keys (m : list (string * A)) :
  (forall k, In k keys -> In k (map fst m)) -> map fst (select keys m) = keys.
Proof.
  induction keys as [|P keys IH]; intros H; [reflexivity|].
  cbn [select]. destruct (lookup P m) as [x|] eqn:E.
  - cbn. f_equal. apply IH. intros k Hk. apply H. now right.
  - exfalso. apply lookup_None_keys in E. apply E, H. now left.
Qed.

Lemma map_fst_pairs {A B : Type} (f : A -> B) (m : list (string * A)) :
  map fst (map (fun kv => (fst kv, f (snd kv))) m) = map fst m.
Proof. rewrite map_map. reflexivity. Qed.

(** The claims that the canonical text of [obj] denotes. *)
Lemma canonical_json_decoded obj :
  PyJson.loads (canonical_json obj)
  = Returns
      (JObj (select (JS.property_list (JS.sort (JS.Object_keys obj)))
               (map (fun kv =>
                       (fst kv,
                        JS.project (JS.property_list (JS.sort (JS.Object_keys obj)))
                          (snd kv))) obj))).
Proof. unfold canonical_json. now rewrite loads_stringify. Qed.

(** X2.  Decoding the canonical text of any payload object succeeds, and the
    decoded object has each top-level key of the payload exactly once, in
    the ascending order of [Array.prototype.sort]: that of the UTF-16
    code units of the keys. *)
Theorem canonical_json_sorted_keys obj :
  exists d,
    PyJson.loads (canonical_json obj) = Returns (JObj d)
    /\ StronglySorted slt (map fst d)
    /\ forall k, In k (map fst d) <-> In k (map fst obj).
Proof.
  eexists. split; [apply canonical_json_decoded|].
  rewrite select_keys_all.
  - split; [apply canonical_keys_sorted | apply canonical_keys_In].
  - intros k Hk. rewrite map_fst_pairs. now apply canonical_keys_In.
Qed.

(** ** Canonical text and the round trip *)

Lemma keys_within_mono K1 K2 v :
  (forall k, In k K1 -> In k K2) -> keys_within K1 v = true -> keys_within K2 v = true.
Proof.
  intros Hsub. induction v as [| b | n | s | items IH | members IH] using json_ind;
    cbn [keys_within]; try reflexivity.
  - rewrite !forallb_forall. rewrite Forall_forall in IH. intros H x Hx. auto.
  - rewrite !forallb_forall. rewrite Forall_forall in IH. intros H kv Hkv.
    specialize (H kv Hkv). apply andb_true_iff in H. destruct H as [Hk Hv].
    apply andb_true_iff. split; [|now apply IH].
    apply existsb_eqb_In. apply Hsub. now apply existsb_eqb_In.
Qed.

Lemma project_eqv K v : keys_within K v = true -> json_eqv v (JS.project K v).
Proof.
  induction v as [| b | n | s | items IH | members IH] using json_ind;
    cbn [keys_within JS.project]; intros H; try constructor.
  - rewrite forallb_forall in H. rewrite Forall_forall in IH.
    induction items as [|x items IHl]; cbn [map]; constructor.
    + apply IH; [now left | apply H; now left].
    + apply IHl; intros y Hy; [apply IH | apply H]; now right.
  - intros k. rewrite lookup_select, lookup_map.
    destruct (lookup k members) as [w|] eqn:E.
    + assert (Hk : existsb (String.eqb k) K = true).
      { rewrite forallb_forall in H. specialize (H _ (lookup_In _ _ _ E)).
        apply andb_true_iff in H. exact (proj1 H). }
      rewrite Hk. cbn. split; discriminate.
    + destruct (existsb (String.eqb k) K); cbn; tauto.
  - intros k v1 v2 H1. rewrite lookup_select, lookup_map, H1.
    rewrite forallb_forall in H. specialize (H _ (lookup_In _ _ _ H1)).
    apply andb_true_iff in H. destruct H as [Hk Hv]. cbn [fst snd] in *.
    rewrite Hk. cbn [option_map]. intros [= <-].
    rewrite Forall_forall in IH. exact (IH _ (lookup_In _ _ _ H1) Hv).
Qed.

(** X3.  The round trip holds, up to the order of members, for every claim
    set in which the keys of nested objects are among the top-level keys;
    in particular for every claim set without nested objects. *)
Theorem canonical_round_trip_within_keys obj :
  keys_within (JS.Object_keys obj) (JObj obj) = true ->
  exists d,
    PyJson.loads (canonical_json obj) = Returns d /\ json_eqv (JObj obj) d.
Proof.
  intros H. eexists. split; [unfold canonical_json; apply loads_stringify|].
  apply project_eqv. revert H. apply keys_within_mono.
  intros k Hk. now apply canonical_keys_In.
Qed.

Lemma select_ext_in {A : Type} keys (a b : list (string * A)) :
  (forall P, In P keys -> lookup P a = lookup P b) -> select keys a = select keys b.
Proof.
  induction keys as [|P keys IH]; intros H; [reflexivity|].
  cbn [select]. rewrite (H P) by now left. rewrite IH; [reflexivity|].
  intros Q HQ. apply H. now right.
Qed.

Lemma serialize_project K v : JS.serialize K (JS.project K v) = JS.serialize K v.
Proof.
  induction v as [| b | n | s | items IH | members IH] using json_ind;
    cbn [JS.project JS.serialize]; try reflexivity.
  - rewrite map_map. f_equal. f_equal. f_equal.
    apply map_ext_in. rewrite Forall_forall in IH. exact IH.
  - f_equal. f_equal. f_equal. f_equal. apply select_ext_in. intros P HP.
    rewrite !lookup_map, lookup_select, lookup_map.
    rewrite (proj2 (existsb_eqb_In P K) HP).
    destruct (lookup P members) as [w|] eqn:E; [|reflexivity].
    cbn [option_map]. f_equal. rewrite Forall_forall in IH.
    exact (IH _ (lookup_In _ _ _ E)).
Qed.

Lemma property_list_sort_sorted K :
  StronglySorted slt K -> JS.property_list (JS.sort K) = K.
Proof.
  intros H. apply strictly_sorted_unique; [|assumption|].
  - apply property_list_from_sorted, sort_sorted.
  - intros x. unfold JS.property_list. rewrite property_list_from_In, sort_In.
    cbn. tauto.
Qed.

(** X4.  The canonical text is a fixed point of decoding and encoding again:
    the claims a validator decodes, serialized by [signToken] once more,
    give back exactly the text that was signed. *)
Theorem canonical_json_reencode obj :
  exists d,
    PyJson.loads (canonical_json obj) = Returns (JObj d)
    /\ canonical_json d = canonical_json obj.
Proof.
  eexists. split; [apply canonical_json_decoded|].
  set (K := JS.property_list (JS.sort (JS.Object_keys obj))).
  unfold canonical_json at 1, JS.JSON_stringify. unfold JS.Object_keys at 1.
  rewrite select_keys_all.
  - rewrite property_list_sort_sorted by apply canonical_keys_sorted.
    fold K. change (JObj (select K (map (fun kv => (fst kv, JS.project K (snd kv))) obj)))
      with (JS.project K (JObj obj)).
    now rewrite serialize_project.
  - intros k Hk. rewrite map_fst_pairs. now apply canonical_keys_In.
Qed.


(** ** Tokens and their claims *)

Lemma count_dots_append a b : count_dots (a ++ b) = (count_dots a + count_dots b)%nat.
Proof.
  induction a as [|c r IH]; [reflexivity|].
  cbn [append count_dots]. destruct (Ascii.eqb c "."); cbn; now rewrite IH.
Qed.

Lemma no_dot_count s : no_dot s = true -> count_dots s = O.
Proof.
  induction s as [|c r IH]; [reflexivity|]. cbn [no_dot count_dots].
  intros H. apply andb_true_iff in H. destruct H as [Hc Hr].
  apply negb_true_iff in Hc. rewrite Hc. auto.
Qed.

Section Signed.

Variable sign_detached : string -> string -> string.
Variable verify_detached : string -> string -> string -> bool.
Variables secretKey publicKey : string.

(** X1.  The compact form of every token [signToken] writes.  It contains
    exactly one separator; the segment before it decodes to the canonical
    text of the payload and the segment after it to the signature of
    exactly that text. *)
Theorem signToken_compact_form payloadObj :
  let token := signToken sign_detached payloadObj secretKey in
  count_dots token = 1%nat
  /\ exists payload_b64 sig_b64,
       split_dot token = [payload_b64; sig_b64]
       /\ B64.decode payload_b64 = Returns (canonical_json payloadObj)
       /\ B64.decode sig_b64
          = Returns (sign_detached (canonical_json payloadObj) secretKey).
Proof.
  cbn zeta. unfold signToken. split.
  - rewrite !count_dots_append, !(no_dot_count (B64.encode _)) by apply encode_no_dot.
    reflexivity.
  - do 2 eexists. split; [apply split_dot_two; apply encode_no_dot|].
    split; apply decode_encode.
Qed.

(** X6.  Tokens issued under different identifiers differ: the token
    determines its [tid], so two issuances with distinct [uuid] never
    return the same token, whatever the requests and the clock. *)
Theorem distinct_uuid_distinct_token
    Date_now1 uuid1 body1 token1 Date_now2 uuid2 body2 token2 :
  token_of (issue_token sign_detached secretKey Date_now1 uuid1 body1) = Some token1 ->
  token_of (issue_token sign_detached secretKey Date_now2 uuid2 body2) = Some token2 ->
  uuid1 <> uuid2 ->
  token1 <> token2.
Proof.
  intros H1 H2 Hne Heq. apply Hne. subst token2.
  apply token_of_issued in H1, H2.
  destruct H1 as [age1 [aud1 [nonce1 [_ [_ [_ [E1 _]]]]]]].
  destruct H2 as [age2 [aud2 [nonce2 [_ [_ [_ [E2 _]]]]]]].
  assert (E : decode_payload token1 = decode_payload token1) by reflexivity.
  rewrite E1 in E at 1. rewrite E2 in E at 1.
  rewrite !decode_payload_signed, !loads_issued in E.
  unfold wire_claims in E. injection E as _ _ _ Ht Hi. congruence.
Qed.

Lemma token_of_accepted Date_now uuid req_body token :
  token_of (issue_token sign_detached secretKey Date_now uuid req_body) = Some token ->
  accepted_request req_body = true.
Proof.
  intros H. destruct (accepted_request req_body) eqn:E; [reflexivity|].
  destruct (issue_token_rejected sign_detached secretKey Date_now uuid req_body E)
    as [reason Hr].
  rewrite Hr in H. discriminate H.
Qed.

Lemma project_atom K v : is_atom v = true -> JS.project K v = v.
Proof. destruct v; cbn; congruence. Qed.

(** X5.  What an issued token carries of the request.  Its [age] is the
    [age] of the request, which is one of the four buckets; its [tid] is
    the generated identifier; its [aud] and [nonce] are those of the
    request whenever they are not arrays or objects. *)
Theorem issued_claims_carry_request Date_now uuid req_body token :
  token_of (issue_token sign_detached secretKey Date_now uuid req_body) = Some token ->
  exists claims age,
    decode_payload token = Returns claims
    /\ lookup "age" req_body = Some (JStr age)
    /\ In age validAgeBuckets
    /\ getitem claims "age" = Returns (JStr age)
    /\ getitem claims "tid" = Returns (JStr uuid)
    /\ (forall aud, lookup "aud" req_body = Some aud -> is_atom aud = true ->
          getitem claims "aud" = Returns aud)
    /\ (forall nonce, lookup "nonce" req_body = Some nonce -> is_atom nonce = true ->
          getitem claims "nonce" = Returns nonce).
Proof.
  intros H. pose proof (token_of_accepted _ _ _ _ H) as Hacc.
  apply token_of_issued in H.
  destruct H as [age [aud [nonce [Ha [Hu [Hn [-> _]]]]]]].
  unfold accepted_request in Hacc. rewrite !andb_true_iff in Hacc.
  destruct Hacc as [_ Hinc]. rewrite Ha in Hinc. unfold JS.includes in Hinc.
  destruct age as [| | |s| |]; try discriminate Hinc.
  apply existsb_eqb_In in Hinc.
  exists (wire_claims uuid (JStr s) aud nonce (Date_now / 1000)), s.
  rewrite decode_payload_signed, loads_issued.
  repeat split; auto.
  - intros a Ea Hat. rewrite Hu in Ea. injection Ea as <-.
    unfold wire_claims, getitem. cbn [lookup String.eqb Ascii.eqb Bool.eqb].
    now rewrite project_atom.
  - intros a Ea Hat. rewrite Hn in Ea. injection Ea as <-.
    unfold wire_claims, getitem. cbn [lookup String.eqb Ascii.eqb Bool.eqb].
    now rewrite project_atom.
Qed.

(** The validator on a token that [signToken] wrote: what is left is to
    read the claims. *)
Lemma validate_signed payloadObj now expected :
  (forall message,
      verify_detached publicKey message (sign_detached message secretKey) = true) ->
  validate_compact_token verify_detached publicKey now
    (signToken sign_detached payloadObj secretKey) expected
  = try_except_Exception
      (payload <- PyJson.loads (canonical_json payloadObj) ;;
       aud <- getitem payload "aud" ;;
       if ne_str aud expected then Returns (false, Reason "audience mismatch")
       else
         exp <- getitem payload "exp" ;;
         expired <- lt_int exp now ;;
         if expired then Returns (false, Reason "expired")
         else Returns (true, Payload payload))
      (fun e => Returns (false, StrOf e)).
Proof.
  intros keys_match. unfold validate_compact_token, validate_body, signToken.
  rewrite split_dot_two by apply encode_no_dot. cbn [unpack2 Py.bind].
  rewrite !decode_encode. cbn [Py.bind]. unfold verify. rewrite keys_match.
  reflexivity.
Qed.

Lemma getitem_canonical obj key v :
  lookup key obj = Some v ->
  is_atom v = true ->
  forall d, PyJson.loads (canonical_json obj) = Returns d ->
  getitem d key = Returns v.
Proof.
  intros Hk Hv d Hd. rewrite canonical_json_decoded in Hd. injection Hd as <-.
  unfold getitem. rewrite lookup_select, lookup_map, Hk.
  rewrite (proj2 (existsb_eqb_In key _)).
  - cbn [option_map]. now rewrite project_atom.
  - apply canonical_keys_In. exact (lookup_Some_key _ _ _ Hk).
Qed.

(** X7.  The verdict on a validly signed payload depends on its [aud] and
    [exp] alone.  Whatever else the payload object holds or lacks ([iat],
    [tid], [nonce], [age], [att] are never read), a token over it is
    refused with [audience mismatch] for any other audience, refused with
    [expired] once [exp < now], and accepted otherwise. *)
Theorem signed_payload_verdict payloadObj aud exp now expected :
  (forall message,
      verify_detached publicKey message (sign_detached message secretKey) = true) ->
  lookup "aud" payloadObj = Some (JStr aud) ->
  lookup "exp" payloadObj = Some (JNum exp) ->
  exists claims,
    PyJson.loads (canonical_json payloadObj) = Returns claims
    /\ validate_compact_token verify_detached publicKey now
         (signToken sign_detached payloadObj secretKey) expected
       = Returns
           (if negb (String.eqb aud expected) then (false, Reason "audience mismatch")
            else if exp <? now then (false, Reason "expired")
            else (true, Payload claims)).
Proof.
  intros keys_match Ha He. eexists. split; [apply canonical_json_decoded|].
  rewrite (validate_signed _ _ _ keys_match).
  pose proof (canonical_json_decoded payloadObj) as Hd. rewrite Hd. cbn [Py.bind].
  rewrite (getitem_canonical _ _ _ Ha eq_refl _ Hd). cbn [Py.bind ne_str].
  destruct (negb (String.eqb aud expected)); [reflexivity|].
  rewrite (getitem_canonical _ _ _ He eq_refl _ Hd). cbn [Py.bind lt_int].
  destruct (exp <? now); reflexivity.
Qed.

End Signed.

(** ** Verdicts and refusals *)

Lemma ne_str_false v s : ne_str v s = false -> v = JStr s.
Proof.
  destruct v; cbn; try discriminate. intros H. apply negb_false_iff in H.
  apply String.eqb_eq in H. now subst.
Qed.

Section Validator.

Variable verify_detached : string -> string -> string -> bool.
Variable publicKey : string.

(** X11.  The shape of every verdict.  The first component is [True] exactly
    when the second is the decoded payload; a refusal carries one of the
    two fixed reasons or the text of the exception that was caught, never
    a payload. *)
Theorem verdict_shape now token expected ok info :
  validate_compact_token verify_detached publicKey now token expected
  = Returns (ok, info) ->
  (ok = true /\ exists payload, info = Payload payload)
  \/ (ok = false
      /\ (info = Reason "audience mismatch" \/ info = Reason "expired"
          \/ exists e, info = StrOf e)).
Proof.
  intros H. destruct (validate_returns verify_detached publicKey now token expected)
    as [ok' [info' [H' Hs]]].
  rewrite H in H'. injection H' as <- <-. exact Hs.
Qed.

(** X8.  Nothing is accepted that is not signed.  When the validator
    accepts, the token consists of two base64url segments, the signature
    in the second verifies under the validator's key over the very octets
    of the first, the payload returned is the JSON document in those octets,
    its [aud] is the expected audience and its [exp] is not before [now]. *)
Theorem accepted_means_signed now token expected info :
  validate_compact_token verify_detached publicKey now token expected
  = Returns (true, info) ->
  exists payload_b64 sig_b64 payload_json sig payload exp,
    info = Payload payload
    /\ split_dot token = [payload_b64; sig_b64]
    /\ B64.decode payload_b64 = Returns payload_json
    /\ B64.decode sig_b64 = Returns sig
    /\ verify_detached publicKey payload_json sig = true
    /\ PyJson.loads payload_json = Returns payload
    /\ getitem payload "aud" = Returns (JStr expected)
    /\ getitem payload "exp" = Returns exp
    /\ lt_int exp now = Returns false.
Proof.
  intros H.
  assert (Hp : exists payload, info = Payload payload).
  { destruct (validate_returns verify_detached publicKey now token expected)
    as [ok' [info' [H' Hs]]].
    rewrite H in H'. injection H' as <- <-.
    destruct Hs as [[_ Hp] | [Hf _]]; [exact Hp | discriminate Hf]. }
  destruct Hp as [payload ->].
  apply validate_accepts in H.
  destruct H as [a [b [pj [sg [aud [exp [Hs [Ha [Hb [Hv [Hl [Hau [Hn [He Hlt]]]]]]]]]]]]]].
  apply ne_str_false in Hn. subst aud.
  exists a, b, pj, sg, payload, exp. repeat split; auto.
Qed.

(** X9.  The signature is checked before the payload is read.  A token of
    two base64url segments whose signature does not verify is refused with
    [BadSignatureError], whatever its payload segment contains. *)
Theorem bad_signature_rejected now token expected payload_b64 sig_b64 payload_json sig :
  split_dot token = [payload_b64; sig_b64] ->
  B64.decode payload_b64 = Returns payload_json ->
  B64.decode sig_b64 = Returns sig ->
  verify_detached publicKey payload_json sig = false ->
  validate_compact_token verify_detached publicKey now token expected
  = Returns (false, StrOf BadSignatureError).
Proof.
  intros Hs Ha Hb Hv. unfold validate_compact_token, validate_body.
  rewrite Hs. cbn [unpack2 Py.bind]. rewrite Ha, Hb. cbn [Py.bind].
  unfold verify. rewrite Hv. cbn [Py.bind]. now rewrite caught.
Qed.

(** X10.  A token with no separator (the empty string among them) or with
    more than one is refused with the [ValueError] of the unpacking, before
    anything is decoded. *)
Theorem wrong_separator_count now token expected :
  count_dots token <> 1%nat ->
  exists msg,
    validate_compact_token verify_detached publicKey now token expected
    = Returns (false, StrOf (ValueError msg)).
Proof.
  intros H. pose proof (split_dot_length token) as Hl.
  unfold validate_compact_token, validate_body.
  destruct (split_dot token) as [|a [|b [|c l]]]; cbn [unpack2 Py.bind List.length] in *;
    try (rewrite caught; eauto).
  exfalso. apply H. lia.
Qed.


End Validator.

(** ** The attestor of the technical appendix *)

Lemma nodupb_NoDup l : nodupb l = true <-> NoDup l.
Proof.
  induction l as [|x l IH]; cbn [nodupb].
  - split; [constructor | reflexivity].
  - rewrite andb_true_iff, negb_true_iff, IH. split.
    + intros [Hx Hl]. constructor; [|assumption].
      intros Hin. apply existsb_eqb_In in Hin. congruence.
    + intros H. inversion H as [|? ? Hx Hl]; subst. split; [|assumption].
      destruct (existsb (String.eqb x) l) eqn:E; [|reflexivity].
      apply existsb_eqb_In in E. contradiction.
Qed.

Lemma property_list_from_fresh seen l :
  NoDup l -> (forall k, In k l -> ~ In k seen) -> JS.property_list_from seen l = l.
Proof.
  intros H. revert seen. induction H as [|k l Hk Hl IH]; intros seen Hs; [reflexivity|].
  cbn [JS.property_list_from].
  destruct (existsb (String.eqb k) seen) eqn:E.
  - apply existsb_eqb_In in E. exfalso. apply (Hs k); [now left | assumption].
  - f_equal. apply IH. intros x Hx [<- | Hin]; [contradiction|].
    apply (Hs x); [now right | assumption].
Qed.

Lemma property_list_NoDup_id l : NoDup l -> JS.property_list l = l.
Proof. intros H. apply property_list_from_fresh; [assumption | intros k _ []]. Qed.

Lemma select_own {A : Type} (m : list (string * A)) :
  NoDup (map fst m) -> select (map fst m) m = m.
Proof.
  intros H.
  assert (G : forall pre, NoDup (map fst (pre ++ m)) ->
                select (map fst m) (pre ++ m) = m).
  { induction m as [|[k v] m IH]; intros pre Hnd; [reflexivity|].
    cbn [map fst select].
    assert (Hl : lookup k (pre ++ (k, v) :: m) = Some v).
    { clear IH H. induction pre as [|[k' v'] pre IHp]; cbn [List.app lookup].
      - now rewrite String.eqb_refl.
      - cbn [List.app map fst] in Hnd. inversion Hnd as [|? ? Hk' Hnd']; subst.
        destruct (String.eqb_spec k k') as [-> | _].
        + exfalso. apply Hk'. rewrite map_app. apply in_or_app. right. now left.
        + now apply IHp. }
    rewrite Hl. f_equal.
    specialize (IH ltac:(now inversion H) (pre ++ [(k, v)])%list).
    rewrite <- List.app_assoc in IH. apply IH. exact Hnd. }
  exact (G [] H).
Qed.

Lemma serialize_own_object members :
  NoDup (map fst members) ->
  serialize_own (JObj members)
  = "{" ++ join_comma
             (map JS.member
                (map (fun kv => (fst kv, serialize_own (snd kv))) members))
        ++ "}".
Proof.
  intros H. cbn [serialize_own]. unfold JS.Object_keys.
  rewrite property_list_NoDup_id by assumption.
  rewrite <- (map_fst_pairs serialize_own members) at 1.
  rewrite select_own; [reflexivity|]. now rewrite map_fst_pairs.
Qed.

Lemma serialize_own_head v :
  exists c r, serialize_own v = String c r /\ value_start c = true.
Proof.
  destruct v as [|[]|n|s|items|members]; cbn [serialize_own];
    try (do 2 eexists; split; reflexivity).
  destruct (number_to_string_head n) as [c [r [E H]]].
  exists c, r. split; [exact E | now apply num_start_value_start].
Qed.

Lemma skip_ws_serialize_own v rest :
  PyJson.skip_ws (serialize_own v ++ rest) = serialize_own v ++ rest.
Proof.
  destruct (serialize_own_head v) as [c [r [E H]]]. rewrite E. cbn [append].
  apply skip_ws_start. unfold value_start in H.
  rewrite !andb_true_iff, !negb_true_iff in H. tauto.
Qed.

Lemma JSONArray_own items :
  Forall decodes_own items -> items <> [] ->
  forall depth rest,
    (String.length (join_comma (map serialize_own items)) < depth)%nat ->
    PyJson.JSONArray depth (join_comma (map serialize_own items) ++ String "]" rest)
    = Returns (items, rest).
Proof.
  induction 1 as [|v items Hv Hitems IH]; [congruence|].
  intros _ depth rest Hdepth.
  destruct depth as [|d]; [lia|]. rewrite JSONArray_step.
  destruct items as [|w items].
  - cbn [map join_comma] in *.
    rewrite Hv by (lia || exact eq_refl). cbn. reflexivity.
  - change (join_comma (map serialize_own (v :: w :: items)))
      with (serialize_own v ++ "," ++ join_comma (map serialize_own (w :: items))) in *.
    rewrite length_append, length_append in Hdepth. cbn [String.length] in Hdepth.
    rewrite append_assoc. rewrite Hv by (lia || exact eq_refl).
    cbn [Py.bind]. rewrite append_assoc. cbn [append PyJson.skip_ws].
    change (PyJson.is_ws ",") with false. cbn iota.
    change (Ascii.eqb "," "]") with false. change (Ascii.eqb "," ",") with true. cbn iota.
    assert (Hs : forall tl, PyJson.skip_ws (join_comma (map serialize_own (w :: items)) ++ tl)
                 = join_comma (map serialize_own (w :: items)) ++ tl).
    { intros tl. destruct items; cbn [map join_comma]; rewrite ?append_assoc;
        apply skip_ws_serialize_own. }
    rewrite Hs, IH by (congruence || lia). reflexivity.
Qed.

Lemma JSONObject_own sel :
  Forall (fun kv => decodes_own (snd kv)) sel -> sel <> [] ->
  forall depth rest,
    (String.length
       (join_comma (map JS.member (map (fun kv => (fst kv, serialize_own (snd kv))) sel)))
     < depth)%nat ->
    PyJson.JSONObject depth
      (join_comma (map JS.member (map (fun kv => (fst kv, serialize_own (snd kv))) sel))
         ++ String "}" rest)
    = Returns (sel, rest).
Proof.
  induction 1 as [|[P v] sel Hv Hsel IH]; [congruence|].
  intros _ depth rest Hdepth. cbn [snd] in Hv.
  destruct depth as [|d]; [lia|].
  pose proof (length_member P (serialize_own v)) as Hlen.
  destruct sel as [|[Q w] sel].
  - cbn [map join_comma fst snd] in *.
    rewrite member_text, JSONObject_step, scanstring_quote_body.
    cbn [Py.bind PyJson.skip_ws]. change (PyJson.is_ws ":") with false. cbn iota.
    change (Ascii.eqb ":" ":") with true. cbn [negb]. cbn iota.
    rewrite skip_ws_serialize_own, Hv by (lia || exact eq_refl). cbn. reflexivity.
  - set (f := fun kv : string * json => (fst kv, serialize_own (snd kv))) in *.
    change (join_comma (map JS.member (map f ((P, v) :: (Q, w) :: sel))))
      with (JS.member (P, serialize_own v) ++ ","
              ++ join_comma (map JS.member (map f ((Q, w) :: sel)))) in *.
    rewrite length_append in Hdepth. cbn [append String.length] in Hdepth.
    rewrite append_assoc, member_text, JSONObject_step, scanstring_quote_body.
    cbn [Py.bind PyJson.skip_ws]. change (PyJson.is_ws ":") with false. cbn iota.
    change (Ascii.eqb ":" ":") with true. cbn [negb]. cbn iota.
    rewrite skip_ws_serialize_own, Hv by (lia || exact eq_refl).
    cbn [Py.bind append PyJson.skip_ws]. change (PyJson.is_ws ",") with false. cbn iota.
    change (Ascii.eqb "," "}") with false. change (Ascii.eqb "," ",") with true. cbn iota.
    assert (Hs : forall tl, PyJson.skip_ws
                   (join_comma (map JS.member (map f ((Q, w) :: sel))) ++ tl)
                 = join_comma (map JS.member (map f ((Q, w) :: sel))) ++ tl).
    { intros tl. destruct sel; cbn [map join_comma]; rewrite ?append_assoc;
        change (f (Q, w)) with (Q, serialize_own w); rewrite member_text;
        reflexivity. }
    rewrite Hs, IH by (congruence || lia). reflexivity.
Qed.

Lemma scan_once_serialize_own v : distinct_keys v = true -> decodes_own v.
Proof.
  induction v as [| b | n | s | items IH | members IH] using json_ind;
    intros Hwf depth rest Hdepth Hrest.
  - destruct depth; [cbn in Hdepth; lia | reflexivity].
  - destruct depth; [destruct b; cbn in Hdepth; lia | destruct b; reflexivity].
  - cbn [serialize_own] in *.
    destruct (number_to_string_head n) as [c [r [E H]]].
    destruct depth; [rewrite E in Hdepth; cbn in Hdepth; lia|].
    rewrite E. cbn [append]. rewrite (scan_once_number _ _ _ H).
    change (String c (r ++ rest)) with (String c r ++ rest).
    rewrite <- E, scan_number_to_string by assumption. reflexivity.
  - cbn [serialize_own] in *. unfold JS.QuoteJSONString in *.
    destruct depth; [cbn in Hdepth; lia|].
    cbn [append]. rewrite scan_once_string, append_assoc. cbn [append].
    now rewrite scanstring_quote_body.
  - cbn [distinct_keys] in Hwf. rewrite forallb_forall in Hwf.
    assert (IH' : Forall decodes_own items).
    { rewrite Forall_forall in *. intros x Hx. apply IH; auto. }
    cbn [serialize_own] in *.
    rewrite length_append in Hdepth. cbn [append String.length] in Hdepth.
    rewrite length_append in Hdepth. cbn [String.length] in Hdepth.
    destruct depth as [|d]; [lia|].
    cbn [append]. rewrite scan_once_array, append_assoc. cbn [append].
    destruct items as [|w items]; [reflexivity|].
    assert (Hs : forall tl, PyJson.skip_ws (join_comma (map serialize_own (w :: items)) ++ tl)
                 = join_comma (map serialize_own (w :: items)) ++ tl).
    { intros tl. destruct items; cbn [map join_comma]; rewrite ?append_assoc;
        apply skip_ws_serialize_own. }
    rewrite Hs.
    destruct (serialize_own_head w) as [c [r [E H]]].
    assert (Hj : exists r', join_comma (map serialize_own (w :: items)) = String c r').
    { destruct items; cbn [map join_comma]; rewrite E; cbn [append]; eauto. }
    destruct Hj as [r' Hj].
    assert (Hc : Ascii.eqb c "]" = false).
    { unfold value_start in H. rewrite !andb_true_iff, !negb_true_iff in H. tauto. }
    pose proof (JSONArray_own (w :: items) IH' ltac:(congruence) d rest ltac:(lia)) as HA.
    rewrite Hj in *. cbn [append] in *. rewrite Hc, HA. reflexivity.
  - cbn [distinct_keys] in Hwf. apply andb_true_iff in Hwf. destruct Hwf as [Hnd Hwf].
    apply nodupb_NoDup in Hnd. rewrite forallb_forall in Hwf.
    assert (IH' : Forall (fun kv => decodes_own (snd kv)) members).
    { rewrite Forall_forall in *. intros x Hx. apply IH; auto. }
    rewrite (serialize_own_object members Hnd) in *.
    rewrite length_append in Hdepth. cbn [append String.length] in Hdepth.
    rewrite length_append in Hdepth. cbn [String.length] in Hdepth.
    destruct depth as [|d]; [lia|].
    cbn [append]. rewrite scan_once_object, append_assoc. cbn [append].
    destruct members as [|[P w] sel]; [reflexivity|].
    pose proof (JSONObject_own ((P, w) :: sel) IH' ltac:(congruence) d rest ltac:(lia)) as HO.
    set (f := fun kv : string * json => (fst kv, serialize_own (snd kv))) in *.
    assert (Hj : exists r', join_comma (map JS.member (map f ((P, w) :: sel)))
                            = String dquote r').
    { destruct sel; cbn [map join_comma]; unfold JS.member, JS.QuoteJSONString;
        cbn [append]; eauto. }
    destruct Hj as [r' Hj]. rewrite Hj in *. cbn [append] in *.
    change (PyJson.skip_ws (String dquote (r' ++ String "}" rest)))
      with (String dquote (r' ++ String "}" rest)).
    cbn iota. change (Ascii.eqb dquote "}") with false. cbn iota.
    rewrite HO. cbn [Py.bind]. now rewrite dict_NoDup.
Qed.

Lemma loads_own v :
  distinct_keys v = true -> PyJson.loads (serialize_own v) = Returns v.
Proof.
  intros Hwf. unfold PyJson.loads.
  pose proof (scan_once_serialize_own v Hwf) as H.
  pose proof (skip_ws_serialize_own v "") as Hs. rewrite append_empty in Hs.
  rewrite Hs. specialize (H (S (String.length (serialize_own v))) "").
  rewrite append_empty in H. rewrite H by (cbn; auto). reflexivity.
Qed.

Lemma decode_payload_appendix sign payloadObj privateKey :
  decode_payload (signToken_appendix sign payloadObj privateKey)
  = PyJson.loads (serialize_own (JObj payloadObj)).
Proof.
  unfold decode_payload, signToken_appendix.
  rewrite split_dot_two by apply encode_no_dot. cbn [unpack2 Py.bind].
  rewrite decode_encode. reflexivity.
Qed.

Section AppendixFacts.

Variable sign_detached : string -> string -> string.
Variable secretKey : string.

(** X14.  With the [signToken] of the appendix listing the round trip is
    exact.  Decoding the payload of its token gives back the payload
    object itself, members in the order in which the object enumerates
    them and nested objects included, for every payload whose objects have
    distinct keys. *)
Theorem appendix_token_round_trip payloadObj :
  distinct_keys (JObj payloadObj) = true ->
  decode_payload (signToken_appendix sign_detached payloadObj secretKey)
  = Returns (JObj payloadObj).
Proof. intros H. rewrite decode_payload_appendix. now apply loads_own. Qed.

(** X15.  The [signToken] of the appendix listing keeps the order of the
    members: different payload objects get different tokens, also when
    they differ only in the order in which their members are enumerated. *)
Theorem appendix_token_order_sensitive payloadObj1 payloadObj2 :
  distinct_keys (JObj payloadObj1) = true ->
  distinct_keys (JObj payloadObj2) = true ->
  payloadObj1 <> payloadObj2 ->
  signToken_appendix sign_detached payloadObj1 secretKey
  <> signToken_appendix sign_detached payloadObj2 secretKey.
Proof.
  intros H1 H2 Hne E. apply Hne.
  assert (E' : decode_payload (signToken_appendix sign_detached payloadObj1 secretKey)
               = decode_payload (signToken_appendix sign_detached payloadObj2 secretKey))
    by now rewrite E.
  rewrite !decode_payload_appendix, (loads_own _ H1), (loads_own _ H2) in E'.
  now injection E'.
Qed.

(** X16.  The handler of the appendix listing does not check the age against
    the buckets.  Every request whose [age], [aud] and [nonce] are truthy
    is answered [201], and the token carries the three values as they were
    sent, with [iat] the clock second and [exp] one hour later. *)
Theorem issue_token_appendix_unchecked Date_now uuid req_body age aud nonce :
  lookup "age" req_body = Some age ->
  lookup "aud" req_body = Some aud ->
  lookup "nonce" req_body = Some nonce ->
  JS.truthy (Some age) = true ->
  JS.truthy (Some aud) = true ->
  JS.truthy (Some nonce) = true ->
  distinct_keys age = true -> distinct_keys aud = true -> distinct_keys nonce = true ->
  exists token,
    issue_token_appendix sign_detached secretKey Date_now uuid req_body
    = Response 201 (JObj [("token", JStr token)])
    /\ decode_payload token
       = Returns (JObj (tokenObj_appendix uuid age aud nonce (Date_now / 1000))).
Proof.
  intros Ha Hu Hn Ta Tu Tn Da Du Dn. unfold issue_token_appendix.
  rewrite Ha, Hu, Hn, Ta, Tu, Tn. cbn [negb orb].
  eexists. split; [reflexivity|].
  rewrite decode_payload_appendix. apply loads_own.
  cbn [distinct_keys tokenObj_appendix map fst snd forallb].
  rewrite Da, Du, Dn. reflexivity.
Qed.

End AppendixFacts.

(** ** From issuance to the validation endpoint *)

Section EndToEnd.

Variable sign_detached : string -> string -> string.
Variable verify_detached : string -> string -> string -> bool.
Variables secretKey publicKey : string.

Hypothesis keys_match :
  forall message,
    verify_detached publicKey message (sign_detached message secretKey) = true.

(** X13.  From [POST /issue_token] to [POST /validate_token].  For a token
    issued for the audience [aud], the validation endpoint answers 200
    with a payload whose [age] is the bucket that was requested when it is
    asked with that audience at a time up to [exp]; it answers 400 with
    [expired] after [exp], and 400 with [audience mismatch] for any other
    audience.  No time is too early: [iat] is not read. *)
Theorem issue_then_validate_token Date_now uuid req_body token aud :
  token_of (issue_token sign_detached secretKey Date_now uuid req_body) = Some token ->
  lookup "aud" req_body = Some (JStr aud) ->
  exists claims age,
    lookup "age" req_body = Some (JStr age)
    /\ In age validAgeBuckets
    /\ getitem claims "age" = Returns (JStr age)
    /\ forall now appid,
         validate_token verify_detached publicKey now token appid
         = Returns
             (if negb (String.eqb aud appid)
              then ValidationResponse 400 false (Reason "audience mismatch")
              else if Date_now / 1000 + ttl <? now
                   then ValidationResponse 400 false (Reason "expired")
                   else ValidationResponse 200 true (Payload claims)).
Proof.
  intros H Hu. pose proof (token_of_accepted _ _ _ _ _ _ H) as Hacc.
  apply token_of_issued in H.
  destruct H as [age [aud' [nonce [Ha [Hu' [_ [-> _]]]]]]].
  rewrite Hu in Hu'. injection Hu' as <-.
  unfold accepted_request in Hacc. rewrite !andb_true_iff in Hacc.
  destruct Hacc as [_ Hinc]. rewrite Ha in Hinc. unfold JS.includes in Hinc.
  destruct age as [| | |s| |]; try discriminate Hinc.
  apply existsb_eqb_In in Hinc.
  exists (wire_claims uuid (JStr s) (JStr aud) nonce (Date_now / 1000)), s.
  repeat split; auto.
  intros now appid. unfold validate_token.
  rewrite (validate_issued _ _ _ _ keys_match). cbn [Py.bind JS.project ne_str].
  destruct (negb (String.eqb aud appid)); [reflexivity|].
  destruct (Date_now / 1000 + ttl <? now); reflexivity.
Qed.

End EndToEnd.

(** ** Examples for the properties above *)

Lemma canonical_round_trip_within_keys_witness :
  exists d,
    PyJson.loads (canonical_json closed_claims) = Returns d
    /\ json_eqv (JObj closed_claims) d.
Proof.
  apply (canonical_round_trip_within_keys closed_claims).
  vm_compute. reflexivity.
Defined.

Lemma distinct_uuid_distinct_token_witness :
  scenario_token
  <> signToken Toy.sign_detached
       (tokenObj "9a2e" (JStr "13_15") (JStr "app.example") (JStr "r4nd1") 1000) "k".
Proof.
  apply (distinct_uuid_distinct_token Toy.sign_detached "k"
           1000999 "6f1c" scenario_body scenario_token
           1000999 "9a2e" scenario_body _).
  - reflexivity.
  - reflexivity.
  - discriminate.
Defined.

Lemma issued_claims_carry_request_witness :
  exists claims,
    decode_payload scenario_token = Returns claims
    /\ getitem claims "age" = Returns (JStr "13_15")
    /\ getitem claims "aud" = Returns (JStr "app.example")
    /\ getitem claims "nonce" = Returns (JStr "r4nd1").
Proof.
  destruct (issued_claims_carry_request Toy.sign_detached "k" 1000999 "6f1c"
              scenario_body scenario_token scenario_issued)
    as [claims [age [Hd [Ha [_ [Hg [_ [Hu Hn]]]]]]]].
  exists claims. injection Ha as <-.
  repeat split; [exact Hd | exact Hg | |].
  - apply Hu; reflexivity.
  - apply Hn; reflexivity.
Defined.

Lemma signed_payload_verdict_witness :
  exists claims,
    validate_compact_token Toy.verify_detached "k" 2000
      (signToken Toy.sign_detached bare_claims "k") "app.example"
    = Returns (true, Payload claims).
Proof.
  destruct (signed_payload_verdict Toy.sign_detached Toy.verify_detached "k" "k"
              bare_claims "app.example" 4600 2000 "app.example"
              keys_match_toy eq_refl eq_refl) as [claims [_ H]].
  exists claims. exact H.
Defined.

Lemma verdict_shape_witness :
  (true = true /\ exists payload, Payload scenario_claims = Payload payload)
  \/ (true = false
      /\ (Payload scenario_claims = Reason "audience mismatch"
          \/ Payload scenario_claims = Reason "expired"
          \/ exists e, Payload scenario_claims = StrOf e)).
Proof.
  exact (verdict_shape Toy.verify_detached "k" 2000 scenario_token "app.example"
           true (Payload scenario_claims) scenario_accepted).
Defined.

Lemma accepted_means_signed_witness :
  exists payload_json sig,
    Toy.verify_detached "k" payload_json sig = true
    /\ PyJson.loads payload_json = Returns scenario_claims.
Proof.
  destruct (accepted_means_signed Toy.verify_detached "k" 2000 scenario_token
              "app.example" (Payload scenario_claims) scenario_accepted)
    as [a [b [pj [sg [p [e [Hi [_ [_ [_ [Hv [Hl _]]]]]]]]]]]].
  injection Hi as <-. exists pj, sg. auto.
Defined.

Lemma bad_signature_rejected_witness :
  validate_compact_token Toy.verify_detached "j" 2000 scenario_token "app.example"
  = Returns (false, StrOf BadSignatureError).
Proof.
  eapply (bad_signature_rejected Toy.verify_detached "j" 2000 scenario_token
            "app.example").
  - vm_compute. reflexivity.
  - vm_compute. reflexivity.
  - vm_compute. reflexivity.
  - vm_compute. reflexivity.
Defined.

Lemma wrong_separator_count_witness :
  exists msg,
    validate_compact_token Toy.verify_detached "k" 2000 "e30" "app.example"
    = Returns (false, StrOf (ValueError msg)).
Proof.
  apply (wrong_separator_count Toy.verify_detached "k" 2000 "e30" "app.example").
  discriminate.
Defined.

Lemma issue_then_validate_token_witness :
  exists claims,
    getitem claims "age" = Returns (JStr "13_15")
    /\ validate_token Toy.verify_detached "k" 2000 scenario_token "app.example"
       = Returns (ValidationResponse 200 true (Payload claims))
    /\ validate_token Toy.verify_detached "k" 2000 scenario_token "other.app"
       = Returns (ValidationResponse 400 false (Reason "audience mismatch"))
    /\ validate_token Toy.verify_detached "k" 4601 scenario_token "app.example"
       = Returns (ValidationResponse 400 false (Reason "expired")).
Proof.
  destruct (issue_then_validate_token Toy.sign_detached Toy.verify_detached "k" "k"
              keys_match_toy 1000999 "6f1c" scenario_body scenario_token "app.example"
              scenario_issued eq_refl) as [claims [age [Ha [_ [Hg H]]]]].
  injection Ha as <-. exists claims.
  split; [exact Hg|]. split; [exact (H 2000 "app.example")|].
  split; [exact (H 2000 "other.app") | exact (H 4601 "app.example")].
Defined.

Lemma appendix_token_round_trip_witness :
  decode_payload (signToken_appendix Toy.sign_detached claims_in_order "k")
  = Returns (JObj claims_in_order).
Proof.
  apply (appendix_token_round_trip Toy.sign_detached "k" claims_in_order).
  reflexivity.
Defined.

Lemma appendix_token_order_sensitive_witness :
  signToken_appendix Toy.sign_detached claims_in_order "k"
  <> signToken_appendix Toy.sign_detached claims_reordered "k".
Proof.
  apply (appendix_token_order_sensitive Toy.sign_detached "k"
           claims_in_order claims_reordered).
  - reflexivity.
  - reflexivity.
  - discriminate.
Defined.

Lemma issue_token_appendix_unchecked_witness :
  exists token,
    issue_token_appendix Toy.sign_detached "k" 1000999 "6f1c" raw_age_body
    = Response 201 (JObj [("token", JStr token)])
    /\ decode_payload token
       = Returns (JObj (tokenObj_appendix "6f1c" (JStr "42") (JStr "app.example")
                          (JObj [("salt", JStr "r4nd1"); ("n", JNum 7)]) 1000)).
Proof.
  apply (issue_token_appendix_unchecked Toy.sign_detached "k" 1000999 "6f1c"
           raw_age_body); reflexivity.
Defined.
